(** * Fire-infrastructure coverage engine (coverage.worker.js)

    A shallow embedding of the worker's spatial grid index, its distance
    and polygon helpers, the address precomputation pass and the zone
    analysis, followed by the properties of the engine.

    JavaScript numbers are IEEE-754 binary64 values.  They are modelled by
    [spec_float] with precision 53 and maximal exponent 1024, whose
    operations round to nearest, ties to even, exactly as the language
    prescribes for [+ - * /] and [Math.sqrt]; NaN, the infinities and the
    signed zeros are part of the model. *)

From Stdlib Require Import ZArith List String Ascii Bool Lia Permutation.
From Stdlib Require Import Floats.SpecFloat.
From stdpp Require Import gmap strings.

Local Open Scope string_scope.
Local Open Scope Z_scope.

(** ** Numbers *)

Module Num.

Abbreviation float := spec_float.

Definition prec : Z := 53.
Definition emax : Z := 1024.

Definition NaN : float := S754_nan.
Definition Infinity : float := S754_infinity false.
Definition zero : float := S754_zero false.

Definition add : float -> float -> float := SFadd prec emax.
Definition sub : float -> float -> float := SFsub prec emax.
Definition mul : float -> float -> float := SFmul prec emax.
Definition div : float -> float -> float := SFdiv prec emax.
Definition sqrt : float -> float := SFsqrt prec emax.
Definition abs : float -> float := SFabs.
Definition opp : float -> float := SFopp.

(** The relational operators; each is [false] as soon as an operand is NaN. *)
Definition ltb : float -> float -> bool := SFltb.
Definition leb : float -> float -> bool := SFleb.
Definition gtb (x y : float) : bool := SFltb y x.
Definition geb (x y : float) : bool := SFleb y x.

(** The number an integer literal, an array length or a loop counter
    denotes: exact below 2^53, rounded to nearest above. *)
Definition of_Z (z : Z) : float := binary_normalize prec emax z 0 false.

(** The number the decimal literal [m]e-[k] denotes.  Both operands of the
    division are exact (|m| < 2^53, k <= 22), so the correctly rounded
    quotient is the double nearest to the literal. *)
Definition dec (m : Z) (k : nat) : float := div (of_Z m) (of_Z (10 ^ Z.of_nat k)).

Definition is_nan (x : float) : bool :=
  match x with S754_nan => true | _ => false end.

Definition is_finite (x : float) : bool :=
  match x with S754_zero _ | S754_finite _ _ _ => true | _ => false end.

(** [Math.floor]: the largest integral number not above [x]; NaN, the
    infinities and both zeros are returned unchanged. *)
Definition floor (x : float) : float :=
  match x with
  | S754_finite s m e =>
      if 0 <=? e then x
      else
        let q := Z.shiftr (Zpos m) (- e) in
        let exact := Z.shiftl q (- e) =? Zpos m in
        if s then (if exact then of_Z (- q) else of_Z (- (q + 1)))
        else of_Z q
  | _ => x
  end.

(** [Math.PI], the double 0x400921FB54442D18. *)
Definition PI : float := S754_finite false 7074237752028440 (-51).

End Num.

Declare Scope js_scope.
Delimit Scope js_scope with js.
Bind Scope js_scope with spec_float.
Infix "+" := Num.add : js_scope.
Infix "-" := Num.sub : js_scope.
Infix "*" := Num.mul : js_scope.
Infix "/" := Num.div : js_scope.
Infix "<" := Num.ltb : js_scope.
Infix "<=" := Num.leb : js_scope.
Infix ">" := Num.gtb : js_scope.
Infix ">=" := Num.geb : js_scope.
Notation "# z" := (Num.of_Z z) (at level 5, format "# z") : js_scope.

Import Num.


(** ** Numbers as text *)

From Stdlib Require Import DecimalString.

(** The decimal digits of a natural number, without sign. *)
Definition digits_of (n : Z) : string := NilZero.string_of_uint (N.to_uint (Z.to_N n)).

(** [Number::toString] for a finite [x >= 10^21] (ECMA-262 6.1.6.1.20,
    steps 5 and 10-11): the least number [k] of significant digits [s] with
    [s * 10^(n-k)] rounding back to [x], printed in exponent form.  Every
    double of that size is an integer [X = m * 2^e] with [e >= 2]; [lo] and
    [hi] are the midpoints to its two neighbours, which round to [x] when
    its mantissa is even. *)
Fixpoint shortest_digits (fuel : nat) (k : Z) (n X lo hi : Z) (incl : bool) : Z * Z :=
  let p := 10 ^ (n - k) in
  let inside c := if incl then (lo <=? c) && (c <=? hi) else (lo <? c) && (c <? hi) in
  let s0 := X / p in
  let ok0 := inside (s0 * p) in
  let ok1 := inside ((s0 + 1) * p) in
  let found s := if s =? 10 ^ k then (10 ^ (k - 1), n + 1) else (s, n) in
  match fuel with
  | O => (s0, n)
  | S fuel' =>
      if ok0 && ok1 then
        (if X - s0 * p <=? (s0 + 1) * p - X then found s0 else found (s0 + 1))
      else if ok0 then found s0
      else if ok1 then found (s0 + 1)
      else shortest_digits fuel' (k + 1) n X lo hi incl
  end.

Definition Number_toString_large (m : positive) (e : Z) : string :=
  let X := Zpos m * 2 ^ e in
  let n := Z.of_nat (String.length (digits_of X)) in
  let below := if (Zpos m =? 2 ^ 52) then 2 ^ (e - 2) else 2 ^ (e - 1) in
  let '(s, n') :=
    shortest_digits 17 1 n X (X - below) (X + 2 ^ (e - 1)) (Z.even (Zpos m)) in
  match digits_of s with
  | String d EmptyString => String d ("e+" ++ digits_of (n' - 1))
  | String d rest => String d ("." ++ rest ++ "e+" ++ digits_of (n' - 1))
  | EmptyString => EmptyString
  end.

(** The integer [n] for which [n / 10^f - m * 2^e] is as close to zero as
    possible, the larger one when there are two. *)
Definition nearest_scaled (m : positive) (e : Z) (f : nat) : Z :=
  let num := Zpos m * 10 ^ Z.of_nat f in
  if 0 <=? e then num * 2 ^ e
  else (2 * num + 2 ^ (- e)) / 2 ^ (- e + 1).

(** The digits of [n] with a decimal point before the last [f] of them,
    padded with zeros on the left to at least [f + 1] digits. *)
Definition place_point (n : Z) (f : nat) : string :=
  let m := digits_of n in
  let k := String.length m in
  let m := if (k <=? f)%nat then String.concat "" (repeat "0" (f + 1 - k)) ++ m else m in
  let k := String.length m in
  match f with
  | O => m
  | _ => substring 0 (k - f) m ++ "." ++ substring (k - f) f m
  end.

(** [Number.prototype.toFixed] (ECMA-262 21.1.3.3). *)
Definition toFixed (x : float) (f : nat) : string :=
  match x with
  | S754_nan => "NaN"
  | S754_infinity s => if s then "-Infinity" else "Infinity"
  | S754_zero _ => place_point 0 f
  | S754_finite s m e =>
      (if s then "-" else "") ++
      (if (#(10 ^ 21) <= abs x)%js then Number_toString_large m e
       else place_point (nearest_scaled m e f) f)
  end.

(** ** The Math object

    ECMA-262 fixes [Math.floor], [Math.abs] and the special cases of the
    trigonometric functions, and leaves the value of [Math.sin], [Math.cos]
    and [Math.atan2] at ordinary arguments to the implementation
    ("implementation-approximated").  The engine is therefore modelled over
    an arbitrary Math object; [RefMath] below is the reference instance used
    to run the engine on concrete data. *)

Record MathObject := {
  Math_sin : float -> float;
  Math_cos : float -> float;
  Math_atan2 : float -> float -> float
}.

(** The reference Math object returns, at ordinary arguments, the double
    nearest to the exact value, computed in fixed point with [P] fractional
    bits; the special cases are those ECMA-262 lists for each function. *)
Module RefMath.

Definition P : Z := 192.
Definition one : Z := 2 ^ P.

Definition fmul (a b : Z) : Z := a * b / one.
Definition fdiv (a b : Z) : Z := a * one / b.

(** The series of [arctan (1/n)] scaled by [2^q]: [pw] is [2^q / n^(2k+1)]. *)
Fixpoint arctan_inv_terms (fuel : nat) (n k pw acc : Z) : Z :=
  match fuel with
  | O => acc
  | S fuel' =>
      let pw' := pw / (n * n) in
      let t := pw' / (2 * k + 3) in
      arctan_inv_terms fuel' n (k + 1) pw' (if Z.even k then acc - t else acc + t)
  end.

Definition arctan_inv (q n : Z) : Z :=
  arctan_inv_terms 300 n 0 (2 ^ q / n) (2 ^ q / n).

(** Argument reduction is carried out with [Pbig] fractional bits, enough
    for the largest double.  Machin: pi = 16 arctan (1/5) - 4 arctan (1/239),
    computed with 64 guard bits. *)
Definition Pbig : Z := 1280.

Definition pi_big : Z :=
  Eval vm_compute in
    (16 * arctan_inv (Pbig + 64) 5 - 4 * arctan_inv (Pbig + 64) 239) / 2 ^ 64.

Definition halfpi_big : Z := pi_big / 2.
Definition pi_fx : Z := Eval vm_compute in pi_big / 2 ^ (Pbig - P).
Definition halfpi_fx : Z := pi_fx / 2.

(** The power of two [2^k] as a double. *)
Definition pow2 (k : Z) : float := binary_normalize prec emax 1 k false.

(** The double nearest to the fixed-point value [z]. *)
Definition of_fx (z : Z) : float := binary_normalize prec emax z (- P) false.

(** The sine and cosine series on [-pi/4, pi/4]; [t] is the term of index [k]. *)
Fixpoint sin_terms (fuel : nat) (k t r2 acc : Z) : Z :=
  match fuel with
  | O => acc
  | S fuel' =>
      let t' := - (fmul t r2 / ((2 * k + 2) * (2 * k + 3))) in
      sin_terms fuel' (k + 1) t' r2 (acc + t')
  end.

Fixpoint cos_terms (fuel : nat) (k t r2 acc : Z) : Z :=
  match fuel with
  | O => acc
  | S fuel' =>
      let t' := - (fmul t r2 / ((2 * k + 1) * (2 * k + 2))) in
      cos_terms fuel' (k + 1) t' r2 (acc + t')
  end.

Definition sin_fx (r : Z) : Z := sin_terms 30 0 r (fmul r r) r.
Definition cos_fx (r : Z) : Z := cos_terms 30 0 one (fmul r r) one.

(** Reduction of the double [m * 2^e] to [r] in [-pi/4, pi/4] and a
    quadrant: [m * 2^e = n * pi/2 + r] with [n] the nearest integer. *)
Definition reduce (m : positive) (e : Z) : Z * Z :=
  let X := Z.shiftl (Zpos m) (e + Pbig) in
  let n := (2 * X + halfpi_big) / (2 * halfpi_big) in
  ((X - n * halfpi_big) / 2 ^ (Pbig - P), n mod 4).

Definition sin_pos (m : positive) (e : Z) : Z :=
  let '(r, q) := reduce m e in
  if q =? 0 then sin_fx r else if q =? 1 then cos_fx r
  else if q =? 2 then - sin_fx r else - cos_fx r.

Definition cos_pos (m : positive) (e : Z) : Z :=
  let '(r, q) := reduce m e in
  if q =? 0 then cos_fx r else if q =? 1 then - sin_fx r
  else if q =? 2 then - cos_fx r else sin_fx r.

(** Below 2^-26 the double nearest to [sin x] is [x] itself. *)
Definition sin (x : float) : float :=
  match x with
  | S754_nan | S754_infinity _ => NaN
  | S754_zero _ => x
  | S754_finite s m e =>
      if (abs x < pow2 (-26))%js then x
      else of_fx (if s then - sin_pos m e else sin_pos m e)
  end.

(** Below 2^-27 the double nearest to [cos x] is 1. *)
Definition cos (x : float) : float :=
  match x with
  | S754_nan | S754_infinity _ => NaN
  | S754_zero _ => (#1)%js
  | S754_finite s m e =>
      if (abs x < pow2 (-27))%js then (#1)%js
      else of_fx (cos_pos m e)
  end.

(** The arctangent on [0, 1]: three halvings
    [atan u = 2 atan (u / (1 + sqrt (1 + u^2)))], then the series. *)
Fixpoint atan_terms (fuel : nat) (k pw u2 acc : Z) : Z :=
  match fuel with
  | O => acc
  | S fuel' =>
      let pw' := fmul pw u2 in
      let t := pw' / (2 * k + 3) in
      atan_terms fuel' (k + 1) pw' u2 (if Z.even k then acc - t else acc + t)
  end.

Definition halve (u : Z) : Z := fdiv u (one + Z.sqrt ((one + fmul u u) * one)).

Definition atan_fx (u : Z) : Z :=
  let v := halve (halve (halve u)) in
  8 * atan_terms 40 0 v (fmul v v) v.

(** [atan (my * 2^ey / (mx * 2^ex))] in fixed point, through the quotient
    that is at most 1. *)
Definition atan_ratio (my : positive) (ey : Z) (mx : positive) (ex : Z) : Z :=
  let q a b s := if 0 <=? s then Z.shiftl a s / b else a / Z.shiftl b (- s) in
  if (S754_finite false my ey <= S754_finite false mx ex)%js
  then atan_fx (q (Zpos my) (Zpos mx) (ey - ex + P))
  else halfpi_fx - atan_fx (q (Zpos mx) (Zpos my) (ex - ey + P)).

Definition signed (s : bool) (x : float) : float := if s then opp x else x.

(** [Math.atan2 y x]; the cases before the last are those of ECMA-262
    21.3.2.8, with the doubles nearest to pi, pi/2, pi/4 and 3 pi/4.  For a
    positive [x] and a quotient below 2^-30 the arctangent rounds as the
    quotient does. *)
Definition atan2 (y x : float) : float :=
  match y, x with
  | S754_nan, _ | _, S754_nan => NaN
  | S754_infinity sy, S754_infinity false => signed sy (of_fx (pi_fx / 4))
  | S754_infinity sy, S754_infinity true => signed sy (of_fx (3 * pi_fx / 4))
  | S754_infinity sy, _ => signed sy (of_fx halfpi_fx)
  | S754_zero sy, (S754_zero false | S754_finite false _ _ | S754_infinity false) => y
  | S754_zero sy, _ => signed sy (of_fx pi_fx)
  | S754_finite sy _ _, S754_infinity false => S754_zero sy
  | S754_finite sy _ _, S754_infinity true => signed sy (of_fx pi_fx)
  | S754_finite sy _ _, S754_zero _ => signed sy (of_fx halfpi_fx)
  | S754_finite sy my ey, S754_finite sx mx ex =>
      let t := (abs y / abs x)%js in
      if negb sx && (t < pow2 (-30))%js then signed sy t
      else
        let a := atan_ratio my ey mx ex in
        signed sy (of_fx (if sx then pi_fx - a else a))
  end.

End RefMath.

Definition ref_Math : MathObject :=
  {| Math_sin := RefMath.sin; Math_cos := RefMath.cos; Math_atan2 := RefMath.atan2 |}.

(** ** Data *)

Local Open Scope list_scope.
Local Open Scope Z_scope.

(** A hydrant, station or address as the worker receives it: an object with
    [lat] and [lon] and further fields the engine never reads. *)
Record Location := {
  lat : float;
  lon : float;
  props : list (string * string)
}.

(** A point of a grid index, [{ lat, lon, data }]. *)
Record Point := {
  plat : float;
  plon : float;
  data : option Location
}.

(** The text [Number::toString] gives a number identifies the number, up to
    the sign of zero (ECMA-262 6.1.6.1.20), and never holds a comma.  A cell
    key [`${cellX},${cellY}`] is therefore kept as the pair of the two
    values rather than as their decimal rendering; [KFin] holds an odd
    mantissa, so that the key depends on the value only. *)
Inductive NumKey :=
  | KNaN
  | KInf (neg : bool)
  | KZero
  | KFin (neg : bool) (m : positive) (e : Z).

Fixpoint odd_part (m : positive) (e : Z) : positive * Z :=
  match m with
  | xO m' => odd_part m' (e + 1)
  | _ => (m, e)
  end.

Definition Number_toString_key (x : float) : NumKey :=
  match x with
  | S754_nan => KNaN
  | S754_infinity s => KInf s
  | S754_zero _ => KZero
  | S754_finite s m e => let '(m', e') := odd_part m e in KFin s m' e'
  end.

Definition CellKey : Type := NumKey * NumKey.

#[global] Instance NumKey_eq_dec : EqDecision NumKey.
Proof. solve_decision. Defined.

#[global] Instance NumKey_countable : Countable NumKey.
Proof.
  refine (inj_countable'
    (fun k => match k with
              | KNaN => inl (inl tt)
              | KZero => inl (inr tt)
              | KInf s => inr (inl s)
              | KFin s m e => inr (inr (s, m, e))
              end)
    (fun c => match c with
              | inl (inl _) => KNaN
              | inl (inr _) => KZero
              | inr (inl s) => KInf s
              | inr (inr (s, m, e)) => KFin s m e
              end) _).
  intros []; reflexivity.
Defined.

(** [class SpatialGrid]: the cell size, the Map from cell keys to the
    points of the cell, and the flat list of all points. *)
Record SpatialGrid := {
  cellSize : float;
  grid : gmap CellKey (list Point);
  allPoints : list Point
}.

(** The result [{ point, distance }] of a nearest-point query. *)
Record Nearest := {
  point : option Point;
  distance : float
}.

(** A GeoJSON geometry: a Polygon holds a list of rings, a MultiPolygon a
    list of polygons; a ring is a list of positions [[lon, lat]]. *)
Definition Ring : Type := list (float * float).

Inductive Geometry :=
  | Polygon (coordinates : list Ring)
  | MultiPolygon (coordinates : list (list Ring))
  | OtherGeometry (type : string).

Record Feature := { geometry : Geometry }.

(** A call either completes with a value or throws (the only exception the
    engine can meet is the TypeError of reading a property of [undefined]). *)
Inductive Completion (A : Type) :=
  | Normal (a : A)
  | TypeError.
Arguments Normal {A} a.
Arguments TypeError {A}.

(** An entry of [addressesWithDistances]: the fields of the address
    ([...addr], kept in [source]) followed by the computed ones, which
    are written after the spread and so override any like-named field. *)
Record AddressRecord := {
  source : Location;
  nearestHydrantDist : float;
  nearestStationDist : float;
  nearestStationData : option Location;
  within500ft : bool;
  within1000ft : bool;
  underserved : bool;
  withinStationMile : bool
}.

(** The [summary] object of the [addressDistancesReady] message. *)
Record Summary := {
  sum_within500ft : float;
  sum_within1000ft : float;
  sum_underserved : float;
  sum_withinStationMile : float;
  avgDistance : float;
  avgStationDistance : float;
  pctWithin500 : string;
  pctWithin1000 : string;
  pctWithinStationMile : string
}.

(** The [stats] object of zone analysis.  The last five fields do not exist
    on the object until they are assigned ([None] is [undefined]);
    [ruralNote] starts as [null]. *)
Record Stats := {
  hydrantCount : float;
  stationCount : float;
  addressCount : float;
  addressesWithin500ft : float;
  addressesWithin1000ft : float;
  addressesUnderserved : float;
  addressesWithinStationMile : float;
  avgDistanceToHydrant : float;
  avgDistanceToStation : float;
  minDistance : float;
  maxDistance : float;
  areaSqMiles : float;
  addressDensity : float;
  hydrantDensityPerSqMile : float;
  isRural : bool;
  ruralNote : option string;
  coveragePercent500 : option string;
  coveragePercent1000 : option string;
  stationCoveragePercent : option string;
  hydrantDensity : option string;
  areaType : option string
}.

(** Assignment to one field of [stats]. *)
Definition set_hydrantCount (v : float) (s : Stats) : Stats :=
  {| 
     hydrantCount := v; stationCount := s.(stationCount); addressCount :=
     s.(addressCount); addressesWithin500ft := s.(addressesWithin500ft);
     addressesWithin1000ft := s.(addressesWithin1000ft);
     addressesUnderserved := s.(addressesUnderserved);
     addressesWithinStationMile := s.(addressesWithinStationMile);
     avgDistanceToHydrant := s.(avgDistanceToHydrant); avgDistanceToStation
     := s.(avgDistanceToStation); minDistance := s.(minDistance);
     maxDistance := s.(maxDistance); areaSqMiles := s.(areaSqMiles);
     addressDensity := s.(addressDensity); hydrantDensityPerSqMile :=
     s.(hydrantDensityPerSqMile); isRural := s.(isRural); ruralNote :=
     s.(ruralNote); coveragePercent500 := s.(coveragePercent500);
     coveragePercent1000 := s.(coveragePercent1000); stationCoveragePercent
     := s.(stationCoveragePercent); hydrantDensity := s.(hydrantDensity);
     areaType := s.(areaType) |}.

Definition set_stationCount (v : float) (s : Stats) : Stats :=
  {| 
     hydrantCount := s.(hydrantCount); stationCount := v; addressCount :=
     s.(addressCount); addressesWithin500ft := s.(addressesWithin500ft);
     addressesWithin1000ft := s.(addressesWithin1000ft);
     addressesUnderserved := s.(addressesUnderserved);
     addressesWithinStationMile := s.(addressesWithinStationMile);
     avgDistanceToHydrant := s.(avgDistanceToHydrant); avgDistanceToStation
     := s.(avgDistanceToStation); minDistance := s.(minDistance);
     maxDistance := s.(maxDistance); areaSqMiles := s.(areaSqMiles);
     addressDensity := s.(addressDensity); hydrantDensityPerSqMile :=
     s.(hydrantDensityPerSqMile); isRural := s.(isRural); ruralNote :=
     s.(ruralNote); coveragePercent500 := s.(coveragePercent500);
     coveragePercent1000 := s.(coveragePercent1000); stationCoveragePercent
     := s.(stationCoveragePercent); hydrantDensity := s.(hydrantDensity);
     areaType := s.(areaType) |}.

Definition set_addressCount (v : float) (s : Stats) : Stats :=
  {| 
     hydrantCount := s.(hydrantCount); stationCount := s.(stationCount);
     addressCount := v; addressesWithin500ft := s.(addressesWithin500ft);
     addressesWithin1000ft := s.(addressesWithin1000ft);
     addressesUnderserved := s.(addressesUnderserved);
     addressesWithinStationMile := s.(addressesWithinStationMile);
     avgDistanceToHydrant := s.(avgDistanceToHydrant); avgDistanceToStation
     := s.(avgDistanceToStation); minDistance := s.(minDistance);
     maxDistance := s.(maxDistance); areaSqMiles := s.(areaSqMiles);
     addressDensity := s.(addressDensity); hydrantDensityPerSqMile :=
     s.(hydrantDensityPerSqMile); isRural := s.(isRural); ruralNote :=
     s.(ruralNote); coveragePercent500 := s.(coveragePercent500);
     coveragePercent1000 := s.(coveragePercent1000); stationCoveragePercent
     := s.(stationCoveragePercent); hydrantDensity := s.(hydrantDensity);
     areaType := s.(areaType) |}.

Definition set_addressesWithin500ft (v : float) (s : Stats) : Stats :=
  {| 
     hydrantCount := s.(hydrantCount); stationCount := s.(stationCount);
     addressCount := s.(addressCount); addressesWithin500ft := v;
     addressesWithin1000ft := s.(addressesWithin1000ft);
     addressesUnderserved := s.(addressesUnderserved);
     addressesWithinStationMile := s.(addressesWithinStationMile);
     avgDistanceToHydrant := s.(avgDistanceToHydrant); avgDistanceToStation
     := s.(avgDistanceToStation); minDistance := s.(minDistance);
     maxDistance := s.(maxDistance); areaSqMiles := s.(areaSqMiles);
     addressDensity := s.(addressDensity); hydrantDensityPerSqMile :=
     s.(hydrantDensityPerSqMile); isRural := s.(isRural); ruralNote :=
     s.(ruralNote); coveragePercent500 := s.(coveragePercent500);
     coveragePercent1000 := s.(coveragePercent1000); stationCoveragePercent
     := s.(stationCoveragePercent); hydrantDensity := s.(hydrantDensity);
     areaType := s.(areaType) |}.

Definition set_addressesWithin1000ft (v : float) (s : Stats) : Stats :=
  {| 
     hydrantCount := s.(hydrantCount); stationCount := s.(stationCount);
     addressCount := s.(addressCount); addressesWithin500ft :=
     s.(addressesWithin500ft); addressesWithin1000ft := v;
     addressesUnderserved := s.(addressesUnderserved);
     addressesWithinStationMile := s.(addressesWithinStationMile);
     avgDistanceToHydrant := s.(avgDistanceToHydrant); avgDistanceToStation
     := s.(avgDistanceToStation); minDistance := s.(minDistance);
     maxDistance := s.(maxDistance); areaSqMiles := s.(areaSqMiles);
     addressDensity := s.(addressDensity); hydrantDensityPerSqMile :=
     s.(hydrantDensityPerSqMile); isRural := s.(isRural); ruralNote :=
     s.(ruralNote); coveragePercent500 := s.(coveragePercent500);
     coveragePercent1000 := s.(coveragePercent1000); stationCoveragePercent
     := s.(stationCoveragePercent); hydrantDensity := s.(hydrantDensity);
     areaType := s.(areaType) |}.

Definition set_addressesUnderserved (v : float) (s : Stats) : Stats :=
  {| 
     hydrantCount := s.(hydrantCount); stationCount := s.(stationCount);
     addressCount := s.(addressCount); addressesWithin500ft :=
     s.(addressesWithin500ft); addressesWithin1000ft :=
     s.(addressesWithin1000ft); addressesUnderserved := v;
     addressesWithinStationMile := s.(addressesWithinStationMile);
     avgDistanceToHydrant := s.(avgDistanceToHydrant); avgDistanceToStation
     := s.(avgDistanceToStation); minDistance := s.(minDistance);
     maxDistance := s.(maxDistance); areaSqMiles := s.(areaSqMiles);
     addressDensity := s.(addressDensity); hydrantDensityPerSqMile :=
     s.(hydrantDensityPerSqMile); isRural := s.(isRural); ruralNote :=
     s.(ruralNote); coveragePercent500 := s.(coveragePercent500);
     coveragePercent1000 := s.(coveragePercent1000); stationCoveragePercent
     := s.(stationCoveragePercent); hydrantDensity := s.(hydrantDensity);
     areaType := s.(areaType) |}.

Definition set_addressesWithinStationMile (v : float) (s : Stats) : Stats :=
  {| 
     hydrantCount := s.(hydrantCount); stationCount := s.(stationCount);
     addressCount := s.(addressCount); addressesWithin500ft :=
     s.(addressesWithin500ft); addressesWithin1000ft :=
     s.(addressesWithin1000ft); addressesUnderserved :=
     s.(addressesUnderserved); addressesWithinStationMile := v;
     avgDistanceToHydrant := s.(avgDistanceToHydrant); avgDistanceToStation
     := s.(avgDistanceToStation); minDistance := s.(minDistance);
     maxDistance := s.(maxDistance); areaSqMiles := s.(areaSqMiles);
     addressDensity := s.(addressDensity); hydrantDensityPerSqMile :=
     s.(hydrantDensityPerSqMile); isRural := s.(isRural); ruralNote :=
     s.(ruralNote); coveragePercent500 := s.(coveragePercent500);
     coveragePercent1000 := s.(coveragePercent1000); stationCoveragePercent
     := s.(stationCoveragePercent); hydrantDensity := s.(hydrantDensity);
     areaType := s.(areaType) |}.

Definition set_avgDistanceToHydrant (v : float) (s : Stats) : Stats :=
  {| 
     hydrantCount := s.(hydrantCount); stationCount := s.(stationCount);
     addressCount := s.(addressCount); addressesWithin500ft :=
     s.(addressesWithin500ft); addressesWithin1000ft :=
     s.(addressesWithin1000ft); addressesUnderserved :=
     s.(addressesUnderserved); addressesWithinStationMile :=
     s.(addressesWithinStationMile); avgDistanceToHydrant := v;
     avgDistanceToStation := s.(avgDistanceToStation); minDistance :=
     s.(minDistance); maxDistance := s.(maxDistance); areaSqMiles :=
     s.(areaSqMiles); addressDensity := s.(addressDensity);
     hydrantDensityPerSqMile := s.(hydrantDensityPerSqMile); isRural :=
     s.(isRural); ruralNote := s.(ruralNote); coveragePercent500 :=
     s.(coveragePercent500); coveragePercent1000 := s.(coveragePercent1000);
     stationCoveragePercent := s.(stationCoveragePercent); hydrantDensity :=
     s.(hydrantDensity); areaType := s.(areaType) |}.

Definition set_avgDistanceToStation (v : float) (s : Stats) : Stats :=
  {| 
     hydrantCount := s.(hydrantCount); stationCount := s.(stationCount);
     addressCount := s.(addressCount); addressesWithin500ft :=
     s.(addressesWithin500ft); addressesWithin1000ft :=
     s.(addressesWithin1000ft); addressesUnderserved :=
     s.(addressesUnderserved); addressesWithinStationMile :=
     s.(addressesWithinStationMile); avgDistanceToHydrant :=
     s.(avgDistanceToHydrant); avgDistanceToStation := v; minDistance :=
     s.(minDistance); maxDistance := s.(maxDistance); areaSqMiles :=
     s.(areaSqMiles); addressDensity := s.(addressDensity);
     hydrantDensityPerSqMile := s.(hydrantDensityPerSqMile); isRural :=
     s.(isRural); ruralNote := s.(ruralNote); coveragePercent500 :=
     s.(coveragePercent500); coveragePercent1000 := s.(coveragePercent1000);
     stationCoveragePercent := s.(stationCoveragePercent); hydrantDensity :=
     s.(hydrantDensity); areaType := s.(areaType) |}.

Definition set_minDistance (v : float) (s : Stats) : Stats :=
  {| 
     hydrantCount := s.(hydrantCount); stationCount := s.(stationCount);
     addressCount := s.(addressCount); addressesWithin500ft :=
     s.(addressesWithin500ft); addressesWithin1000ft :=
     s.(addressesWithin1000ft); addressesUnderserved :=
     s.(addressesUnderserved); addressesWithinStationMile :=
     s.(addressesWithinStationMile); avgDistanceToHydrant :=
     s.(avgDistanceToHydrant); avgDistanceToStation :=
     s.(avgDistanceToStation); minDistance := v; maxDistance :=
     s.(maxDistance); areaSqMiles := s.(areaSqMiles); addressDensity :=
     s.(addressDensity); hydrantDensityPerSqMile :=
     s.(hydrantDensityPerSqMile); isRural := s.(isRural); ruralNote :=
     s.(ruralNote); coveragePercent500 := s.(coveragePercent500);
     coveragePercent1000 := s.(coveragePercent1000); stationCoveragePercent
     := s.(stationCoveragePercent); hydrantDensity := s.(hydrantDensity);
     areaType := s.(areaType) |}.

Definition set_maxDistance (v : float) (s : Stats) : Stats :=
  {| 
     hydrantCount := s.(hydrantCount); stationCount := s.(stationCount);
     addressCount := s.(addressCount); addressesWithin500ft :=
     s.(addressesWithin500ft); addressesWithin1000ft :=
     s.(addressesWithin1000ft); addressesUnderserved :=
     s.(addressesUnderserved); addressesWithinStationMile :=
     s.(addressesWithinStationMile); avgDistanceToHydrant :=
     s.(avgDistanceToHydrant); avgDistanceToStation :=
     s.(avgDistanceToStation); minDistance := s.(minDistance); maxDistance
     := v; areaSqMiles := s.(areaSqMiles); addressDensity :=
     s.(addressDensity); hydrantDensityPerSqMile :=
     s.(hydrantDensityPerSqMile); isRural := s.(isRural); ruralNote :=
     s.(ruralNote); coveragePercent500 := s.(coveragePercent500);
     coveragePercent1000 := s.(coveragePercent1000); stationCoveragePercent
     := s.(stationCoveragePercent); hydrantDensity := s.(hydrantDensity);
     areaType := s.(areaType) |}.

Definition set_addressDensity (v : float) (s : Stats) : Stats :=
  {| 
     hydrantCount := s.(hydrantCount); stationCount := s.(stationCount);
     addressCount := s.(addressCount); addressesWithin500ft :=
     s.(addressesWithin500ft); addressesWithin1000ft :=
     s.(addressesWithin1000ft); addressesUnderserved :=
     s.(addressesUnderserved); addressesWithinStationMile :=
     s.(addressesWithinStationMile); avgDistanceToHydrant :=
     s.(avgDistanceToHydrant); avgDistanceToStation :=
     s.(avgDistanceToStation); minDistance := s.(minDistance); maxDistance
     := s.(maxDistance); areaSqMiles := s.(areaSqMiles); addressDensity :=
     v; hydrantDensityPerSqMile := s.(hydrantDensityPerSqMile); isRural :=
     s.(isRural); ruralNote := s.(ruralNote); coveragePercent500 :=
     s.(coveragePercent500); coveragePercent1000 := s.(coveragePercent1000);
     stationCoveragePercent := s.(stationCoveragePercent); hydrantDensity :=
     s.(hydrantDensity); areaType := s.(areaType) |}.

Definition set_hydrantDensityPerSqMile (v : float) (s : Stats) : Stats :=
  {| 
     hydrantCount := s.(hydrantCount); stationCount := s.(stationCount);
     addressCount := s.(addressCount); addressesWithin500ft :=
     s.(addressesWithin500ft); addressesWithin1000ft :=
     s.(addressesWithin1000ft); addressesUnderserved :=
     s.(addressesUnderserved); addressesWithinStationMile :=
     s.(addressesWithinStationMile); avgDistanceToHydrant :=
     s.(avgDistanceToHydrant); avgDistanceToStation :=
     s.(avgDistanceToStation); minDistance := s.(minDistance); maxDistance
     := s.(maxDistance); areaSqMiles := s.(areaSqMiles); addressDensity :=
     s.(addressDensity); hydrantDensityPerSqMile := v; isRural :=
     s.(isRural); ruralNote := s.(ruralNote); coveragePercent500 :=
     s.(coveragePercent500); coveragePercent1000 := s.(coveragePercent1000);
     stationCoveragePercent := s.(stationCoveragePercent); hydrantDensity :=
     s.(hydrantDensity); areaType := s.(areaType) |}.

Definition set_isRural (v : bool) (s : Stats) : Stats :=
  {| 
     hydrantCount := s.(hydrantCount); stationCount := s.(stationCount);
     addressCount := s.(addressCount); addressesWithin500ft :=
     s.(addressesWithin500ft); addressesWithin1000ft :=
     s.(addressesWithin1000ft); addressesUnderserved :=
     s.(addressesUnderserved); addressesWithinStationMile :=
     s.(addressesWithinStationMile); avgDistanceToHydrant :=
     s.(avgDistanceToHydrant); avgDistanceToStation :=
     s.(avgDistanceToStation); minDistance := s.(minDistance); maxDistance
     := s.(maxDistance); areaSqMiles := s.(areaSqMiles); addressDensity :=
     s.(addressDensity); hydrantDensityPerSqMile :=
     s.(hydrantDensityPerSqMile); isRural := v; ruralNote := s.(ruralNote);
     coveragePercent500 := s.(coveragePercent500); coveragePercent1000 :=
     s.(coveragePercent1000); stationCoveragePercent :=
     s.(stationCoveragePercent); hydrantDensity := s.(hydrantDensity);
     areaType := s.(areaType) |}.

Definition set_ruralNote (v : option string) (s : Stats) : Stats :=
  {| 
     hydrantCount := s.(hydrantCount); stationCount := s.(stationCount);
     addressCount := s.(addressCount); addressesWithin500ft :=
     s.(addressesWithin500ft); addressesWithin1000ft :=
     s.(addressesWithin1000ft); addressesUnderserved :=
     s.(addressesUnderserved); addressesWithinStationMile :=
     s.(addressesWithinStationMile); avgDistanceToHydrant :=
     s.(avgDistanceToHydrant); avgDistanceToStation :=
     s.(avgDistanceToStation); minDistance := s.(minDistance); maxDistance
     := s.(maxDistance); areaSqMiles := s.(areaSqMiles); addressDensity :=
     s.(addressDensity); hydrantDensityPerSqMile :=
     s.(hydrantDensityPerSqMile); isRural := s.(isRural); ruralNote := v;
     coveragePercent500 := s.(coveragePercent500); coveragePercent1000 :=
     s.(coveragePercent1000); stationCoveragePercent :=
     s.(stationCoveragePercent); hydrantDensity := s.(hydrantDensity);
     areaType := s.(areaType) |}.

Definition set_coveragePercent500 (v : option string) (s : Stats) : Stats :=
  {| 
     hydrantCount := s.(hydrantCount); stationCount := s.(stationCount);
     addressCount := s.(addressCount); addressesWithin500ft :=
     s.(addressesWithin500ft); addressesWithin1000ft :=
     s.(addressesWithin1000ft); addressesUnderserved :=
     s.(addressesUnderserved); addressesWithinStationMile :=
     s.(addressesWithinStationMile); avgDistanceToHydrant :=
     s.(avgDistanceToHydrant); avgDistanceToStation :=
     s.(avgDistanceToStation); minDistance := s.(minDistance); maxDistance
     := s.(maxDistance); areaSqMiles := s.(areaSqMiles); addressDensity :=
     s.(addressDensity); hydrantDensityPerSqMile :=
     s.(hydrantDensityPerSqMile); isRural := s.(isRural); ruralNote :=
     s.(ruralNote); coveragePercent500 := v; coveragePercent1000 :=
     s.(coveragePercent1000); stationCoveragePercent :=
     s.(stationCoveragePercent); hydrantDensity := s.(hydrantDensity);
     areaType := s.(areaType) |}.

Definition set_coveragePercent1000 (v : option string) (s : Stats) : Stats :=
  {| 
     hydrantCount := s.(hydrantCount); stationCount := s.(stationCount);
     addressCount := s.(addressCount); addressesWithin500ft :=
     s.(addressesWithin500ft); addressesWithin1000ft :=
     s.(addressesWithin1000ft); addressesUnderserved :=
     s.(addressesUnderserved); addressesWithinStationMile :=
     s.(addressesWithinStationMile); avgDistanceToHydrant :=
     s.(avgDistanceToHydrant); avgDistanceToStation :=
     s.(avgDistanceToStation); minDistance := s.(minDistance); maxDistance
     := s.(maxDistance); areaSqMiles := s.(areaSqMiles); addressDensity :=
     s.(addressDensity); hydrantDensityPerSqMile :=
     s.(hydrantDensityPerSqMile); isRural := s.(isRural); ruralNote :=
     s.(ruralNote); coveragePercent500 := s.(coveragePercent500);
     coveragePercent1000 := v; stationCoveragePercent :=
     s.(stationCoveragePercent); hydrantDensity := s.(hydrantDensity);
     areaType := s.(areaType) |}.

Definition set_stationCoveragePercent (v : option string) (s : Stats) : Stats :=
  {| 
     hydrantCount := s.(hydrantCount); stationCount := s.(stationCount);
     addressCount := s.(addressCount); addressesWithin500ft :=
     s.(addressesWithin500ft); addressesWithin1000ft :=
     s.(addressesWithin1000ft); addressesUnderserved :=
     s.(addressesUnderserved); addressesWithinStationMile :=
     s.(addressesWithinStationMile); avgDistanceToHydrant :=
     s.(avgDistanceToHydrant); avgDistanceToStation :=
     s.(avgDistanceToStation); minDistance := s.(minDistance); maxDistance
     := s.(maxDistance); areaSqMiles := s.(areaSqMiles); addressDensity :=
     s.(addressDensity); hydrantDensityPerSqMile :=
     s.(hydrantDensityPerSqMile); isRural := s.(isRural); ruralNote :=
     s.(ruralNote); coveragePercent500 := s.(coveragePercent500);
     coveragePercent1000 := s.(coveragePercent1000); stationCoveragePercent
     := v; hydrantDensity := s.(hydrantDensity); areaType := s.(areaType) |}.

Definition set_hydrantDensity (v : option string) (s : Stats) : Stats :=
  {| 
     hydrantCount := s.(hydrantCount); stationCount := s.(stationCount);
     addressCount := s.(addressCount); addressesWithin500ft :=
     s.(addressesWithin500ft); addressesWithin1000ft :=
     s.(addressesWithin1000ft); addressesUnderserved :=
     s.(addressesUnderserved); addressesWithinStationMile :=
     s.(addressesWithinStationMile); avgDistanceToHydrant :=
     s.(avgDistanceToHydrant); avgDistanceToStation :=
     s.(avgDistanceToStation); minDistance := s.(minDistance); maxDistance
     := s.(maxDistance); areaSqMiles := s.(areaSqMiles); addressDensity :=
     s.(addressDensity); hydrantDensityPerSqMile :=
     s.(hydrantDensityPerSqMile); isRural := s.(isRural); ruralNote :=
     s.(ruralNote); coveragePercent500 := s.(coveragePercent500);
     coveragePercent1000 := s.(coveragePercent1000); stationCoveragePercent
     := s.(stationCoveragePercent); hydrantDensity := v; areaType :=
     s.(areaType) |}.

Definition set_areaType (v : option string) (s : Stats) : Stats :=
  {| 
     hydrantCount := s.(hydrantCount); stationCount := s.(stationCount);
     addressCount := s.(addressCount); addressesWithin500ft :=
     s.(addressesWithin500ft); addressesWithin1000ft :=
     s.(addressesWithin1000ft); addressesUnderserved :=
     s.(addressesUnderserved); addressesWithinStationMile :=
     s.(addressesWithinStationMile); avgDistanceToHydrant :=
     s.(avgDistanceToHydrant); avgDistanceToStation :=
     s.(avgDistanceToStation); minDistance := s.(minDistance); maxDistance
     := s.(maxDistance); areaSqMiles := s.(areaSqMiles); addressDensity :=
     s.(addressDensity); hydrantDensityPerSqMile :=
     s.(hydrantDensityPerSqMile); isRural := s.(isRural); ruralNote :=
     s.(ruralNote); coveragePercent500 := s.(coveragePercent500);
     coveragePercent1000 := s.(coveragePercent1000); stationCoveragePercent
     := s.(stationCoveragePercent); hydrantDensity := s.(hydrantDensity);
     areaType := v |}.

(** The messages the worker posts. *)
Inductive Message :=
  | hydrantIndexReady (count elapsed : float)
  | stationsIndexReady (count : float)
  | progress (current total : float)
  | addressDistancesReady (count elapsed : float) (summary : Summary)
  | zipCodeAnalysisReady (stats : Stats) (elapsed : float).

(** The messages the worker receives. *)
Inductive Request :=
  | buildHydrantIndexReq (hydrants : list Location)
  | setStationsReq (stations : list Location)
  | precomputeAddressDistancesReq (addresses : list Location)
  | analyzeZipCodeReq (zipCodeFeature : Feature).

(** The module-level variables of the worker. *)
Record Engine := {
  hydrantGrid : SpatialGrid;
  stationGrid : SpatialGrid;
  addressesWithDistances : list AddressRecord;
  hydrantsList : list Location;
  stationsList : list Location
}.

(** The worker and its surroundings: the engine, the messages posted so
    far (oldest first), and the clock, given as the readings that
    successive calls of [performance.now()] return. *)
Record World := {
  engine : Engine;
  outbox : list Message;
  clock : nat -> float;
  ticks : nat
}.

(** ** The worker monad: state and exceptions

    A computation runs in a world and either completes with a value or
    throws; in both cases it leaves a world behind, since what a handler
    wrote before throwing stays written. *)
Definition Worker (A : Type) : Type := World -> Completion A * World.

#[global] Instance Worker_ret : MRet Worker :=
  fun A a w => (Normal a, w).

#[global] Instance Worker_bind : MBind Worker :=
  fun A B f m w =>
    match m w with
    | (Normal a, w') => f a w'
    | (TypeError, w') => (TypeError, w')
    end.

Definition throw {A} : Worker A := fun w => (TypeError, w).

(** Lifting of a pure call that may throw. *)
Definition lift {A} (c : Completion A) : Worker A := fun w => (c, w).

Definition get_engine : Worker Engine := fun w => (Normal w.(engine), w).

Definition put_engine (e : Engine) : Worker unit := fun w =>
  (Normal tt, {| engine := e; outbox := w.(outbox); clock := w.(clock); ticks := w.(ticks) |}).

Definition postMessage (m : Message) : Worker unit := fun w =>
  (Normal tt, {| engine := w.(engine); outbox := w.(outbox) ++ [m];
                 clock := w.(clock); ticks := w.(ticks) |}).

Definition performance_now : Worker float := fun w =>
  (Normal (w.(clock) w.(ticks)),
   {| engine := w.(engine); outbox := w.(outbox);
      clock := w.(clock); ticks := S w.(ticks) |}).

(** [for (const x of l) body], threading the local variables [s]. *)
Fixpoint for_of {A S : Type} (l : list A) (body : A -> S -> Worker S) (s : S) : Worker S :=
  match l with
  | [] => mret s
  | x :: l' => s' ← body x s; for_of l' body s'
  end.

(** The same loop for a body that cannot touch the world. *)
Fixpoint for_of_pure {A S : Type} (l : list A) (body : A -> S -> Completion S) (s : S)
  : Completion S :=
  match l with
  | [] => Normal s
  | x :: l' =>
      match body x s with
      | Normal s' => for_of_pure l' body s'
      | TypeError => TypeError
      end
  end.

(** [Array.prototype.length] as a number. *)
Definition length_num {A} (l : list A) : float := #(Z.of_nat (length l))%js.

(** [l.reduce((sum, a) => sum + f(a), 0)]. *)
Definition reduce_sum {A} (f : A -> float) (l : list A) : float :=
  fold_left (fun sum a => (sum + f a)%js) l (#0)%js.

(** ** The engine *)

Section Engine.

Variable Math : MathObject.

(** *** Distance *)

Definition haversineDistance (lat1 lon1 lat2 lon2 : float) : float :=
  let R := (#20902231)%js in
  let dLat := ((lat2 - lat1) * PI / #180)%js in
  let dLon := ((lon2 - lon1) * PI / #180)%js in
  let a := (Math_sin Math (dLat / #2) * Math_sin Math (dLat / #2) +
            Math_cos Math (lat1 * PI / #180) * Math_cos Math (lat2 * PI / #180) *
            Math_sin Math (dLon / #2) * Math_sin Math (dLon / #2))%js in
  let c := (#2 * Math_atan2 Math (sqrt a) (sqrt (#1 - a)))%js in
  (R * c)%js.

(** *** The spatial grid *)

(** [new SpatialGrid(cellSizeDegrees)]. *)
Definition new_SpatialGrid (cellSizeDegrees : float) : SpatialGrid :=
  {| cellSize := cellSizeDegrees; grid := ∅; allPoints := [] |}.

Definition clear (g : SpatialGrid) : SpatialGrid :=
  {| cellSize := g.(cellSize); grid := ∅; allPoints := [] |}.

(** The key [`${cellX},${cellY}`]. *)
Definition cell_key (cellX cellY : float) : CellKey :=
  (Number_toString_key cellX, Number_toString_key cellY).

Definition getCell (g : SpatialGrid) (lat lon : float) : CellKey :=
  let cellX := floor (lon / g.(cellSize))%js in
  let cellY := floor (lat / g.(cellSize))%js in
  cell_key cellX cellY.

Definition insert (g : SpatialGrid) (lat lon : float) (data : option Location) : SpatialGrid :=
  let point := {| plat := lat; plon := lon; data := data |} in
  let allPoints' := g.(allPoints) ++ [point] in
  let cell := getCell g lat lon in
  let grid' :=
    match g.(grid) !! cell with
    | None => <[cell := []]> g.(grid)
    | Some _ => g.(grid)
    end in
  let bucket := default [] (grid' !! cell) in
  {| cellSize := g.(cellSize);
     grid := <[cell := bucket ++ [point]]> grid';
     allPoints := allPoints' |}.

(** The values [-radiusCells, ..., radiusCells] of a loop counter. *)
Definition offsets (radiusCells : Z) : list Z :=
  seqZ (- radiusCells) (2 * radiusCells + 1).

Definition getNearbyPoints (g : SpatialGrid) (lat lon : float) (radiusCells : Z)
  : list Point :=
  let centerCellX := floor (lon / g.(cellSize))%js in
  let centerCellY := floor (lat / g.(cellSize))%js in
  flat_map (fun dx =>
    flat_map (fun dy =>
      let cell := cell_key (centerCellX + #dx)%js (centerCellY + #dy)%js in
      match g.(grid) !! cell with
      | Some points => points
      | None => []
      end) (offsets radiusCells)) (offsets radiusCells).

(** The inner loop of [findNearest]: the best candidate so far. *)
Definition closer (lat lon : float) (best : Nearest) (point : Point) : Nearest :=
  let dist := haversineDistance lat lon point.(plat) point.(plon) in
  if (dist < best.(distance))%js
  then {| point := Some point; distance := dist |}
  else best.

Definition nearest_of (lat lon : float) (candidates : list Point) : Nearest :=
  fold_left (closer lat lon) candidates {| point := None; distance := Infinity |}.

(** The outer loop of [findNearest] over the radii still to be tried. *)
Fixpoint findNearest_from (g : SpatialGrid) (lat lon : float) (radii : list Z) : Nearest :=
  match radii with
  | [] => {| point := None; distance := Infinity |}
  | radius :: radii' =>
      let candidates := getNearbyPoints g lat lon radius in
      if (0 <? length candidates)%nat
      then nearest_of lat lon candidates
      else findNearest_from g lat lon radii'
  end.

Definition findNearest (g : SpatialGrid) (lat lon : float) : Nearest :=
  findNearest_from g lat lon (seqZ 1 20).

(** *** Polygons *)

(** The test of one edge, from vertex [j] to vertex [i]. *)
Definition crosses (lat lon : float) (vi vj : float * float) : bool :=
  let '(xi, yi) := vi in
  let '(xj, yj) := vj in
  xorb (yi > lat)%js (yj > lat)%js &&
  (lon < (xj - xi) * (lat - yi) / (yj - yi) + xi)%js.

(** The loop [for (i = 0, j = coords.length - 1; i < coords.length; j = i++)];
    both indices stay within the ring. *)
Definition ring_step (lat lon : float) (coords : Ring) (st : bool * nat) (i : nat)
  : bool * nat :=
  let '(inside, j) := st in
  match coords !! i, coords !! j with
  | Some vi, Some vj => (if crosses lat lon vi vj then negb inside else inside, i)
  | _, _ => (inside, i)
  end.

Definition ring_inside (lat lon : float) (coords : Ring) : bool :=
  fst (fold_left (ring_step lat lon coords) (seq 0 (length coords))
                 (false, (length coords - 1)%nat)).

(** [for (const coords of rings) { ...; if (inside) return true }]; a ring
    that is [undefined] throws when its length is read. *)
Fixpoint any_ring_inside (lat lon : float) (rings : list (option Ring)) : Completion bool :=
  match rings with
  | [] => Normal false
  | None :: _ => TypeError
  | Some coords :: rings' =>
      if ring_inside lat lon coords then Normal true
      else any_ring_inside lat lon rings'
  end.

Definition pointInPolygon (lat lon : float) (polygon : Feature) : Completion bool :=
  match polygon.(geometry) with
  | Polygon coordinates => any_ring_inside lat lon [head coordinates]
  | MultiPolygon coordinates => any_ring_inside lat lon (map head coordinates)
  | OtherGeometry _ => Normal false
  end.

(** The shoelace loop [for (i = 0; i < coords.length - 1; i++)]. *)
Definition shoelace_step (lonToMiles latToMiles : float) (coords : Ring)
  (area : float) (i : nat) : float :=
  match coords !! i, coords !! (i + 1)%nat with
  | Some (cx1, cy1), Some (cx2, cy2) =>
      let x1 := (cx1 * lonToMiles)%js in
      let y1 := (cy1 * latToMiles)%js in
      let x2 := (cx2 * lonToMiles)%js in
      let y2 := (cy2 * latToMiles)%js in
      (area + (x1 * y2 - x2 * y1))%js
  | _, _ => area
  end.

Definition calculateRingArea (coords : option Ring) : Completion float :=
  match coords with
  | None => TypeError
  | Some coords =>
      let avgLat := (reduce_sum snd coords / length_num coords)%js in
      let lonToMiles := (#69 * Math_cos Math (avgLat * PI / #180))%js in
      let latToMiles := (#69)%js in
      let area :=
        fold_left (shoelace_step lonToMiles latToMiles coords)
                  (seq 0 (length coords - 1)%nat) (#0)%js in
      Normal (abs (area / #2)%js)
  end.

Definition calculatePolygonArea (polygon : Feature) : Completion float :=
  match polygon.(geometry) with
  | Polygon coordinates => calculateRingArea (head coordinates)
  | MultiPolygon coordinates =>
      for_of_pure coordinates
        (fun poly totalArea =>
           match calculateRingArea (head poly) with
           | Normal area => Normal (totalArea + area)%js
           | TypeError => TypeError
           end) (#0)%js
  | OtherGeometry _ => Normal (#0)%js
  end.

(** *** The worker's handlers *)

Definition set_hydrants (g : SpatialGrid) (l : list Location) (e : Engine) : Engine :=
  {| hydrantGrid := g; stationGrid := e.(stationGrid);
     addressesWithDistances := e.(addressesWithDistances);
     hydrantsList := l; stationsList := e.(stationsList) |}.

Definition set_stations (g : SpatialGrid) (l : list Location) (e : Engine) : Engine :=
  {| hydrantGrid := e.(hydrantGrid); stationGrid := g;
     addressesWithDistances := e.(addressesWithDistances);
     hydrantsList := e.(hydrantsList); stationsList := l |}.

Definition set_addressesWithDistances (t : list AddressRecord) (e : Engine) : Engine :=
  {| hydrantGrid := e.(hydrantGrid); stationGrid := e.(stationGrid);
     addressesWithDistances := t;
     hydrantsList := e.(hydrantsList); stationsList := e.(stationsList) |}.

Definition buildHydrantIndex (hydrants : list Location) : Worker unit :=
  startTime ← performance_now;
  e ← get_engine;
  let g := fold_left (fun g h => insert g h.(lat) h.(lon) None) hydrants
                     (clear e.(hydrantGrid)) in
  _ ← put_engine (set_hydrants g hydrants e);
  now ← performance_now;
  let elapsed := (now - startTime)%js in
  postMessage (hydrantIndexReady (length_num hydrants) elapsed).

Definition setStations (stations : list Location) : Worker unit :=
  e ← get_engine;
  let g := fold_left (fun g s => insert g s.(lat) s.(lon) (Some s)) stations
                     (clear e.(stationGrid)) in
  _ ← put_engine (set_stations g stations e);
  postMessage (stationsIndexReady (length_num stations)).

(** The record pushed for one address. *)
Definition address_record (e : Engine) (addr : Location) : AddressRecord :=
  let ONE_MILE_FT := (#5280)%js in
  let nearestHydrant := findNearest e.(hydrantGrid) addr.(lat) addr.(lon) in
  let nearestStation :=
    if (0 <? length e.(stationsList))%nat
    then findNearest e.(stationGrid) addr.(lat) addr.(lon)
    else {| point := None; distance := Infinity |} in
  {| source := addr;
     nearestHydrantDist := nearestHydrant.(distance);
     nearestStationDist := nearestStation.(distance);
     nearestStationData := p ← nearestStation.(point); p.(data);
     within500ft := (nearestHydrant.(distance) <= #500)%js;
     within1000ft := (nearestHydrant.(distance) <= #1000)%js;
     underserved := (nearestHydrant.(distance) > #1000)%js;
     withinStationMile := (nearestStation.(distance) <= ONE_MILE_FT)%js |}.

(** The body of the loop over [addresses], at index [i]. *)
Definition precompute_step (total : nat) (ia : nat * Location) (_ : unit) : Worker unit :=
  let '(i, addr) := ia in
  e ← get_engine;
  _ ← put_engine
        (set_addressesWithDistances
           (e.(addressesWithDistances) ++ [address_record e addr]) e);
  if (Z.of_nat (i + 1) mod 5000 =? 0)
  then postMessage (progress (#(Z.of_nat (i + 1)))%js (#(Z.of_nat total))%js)
  else mret tt.

Definition summary_of (e : Engine) : Summary :=
  let table := e.(addressesWithDistances) in
  let within500 := length_num (filter (fun a => within500ft a = true) table) in
  let within1000 := length_num (filter (fun a => within1000ft a = true) table) in
  let underserved := length_num (filter (fun a => underserved a = true) table) in
  let withinStationMile :=
    length_num (filter (fun a => withinStationMile a = true) table) in
  let avgDist := (reduce_sum nearestHydrantDist table / length_num table)%js in
  let avgStationDist :=
    if (0 <? length e.(stationsList))%nat
    then (reduce_sum nearestStationDist table / length_num table)%js
    else (#0)%js in
  {| sum_within500ft := within500;
     sum_within1000ft := within1000;
     sum_underserved := underserved;
     sum_withinStationMile := withinStationMile;
     avgDistance := avgDist;
     avgStationDistance := avgStationDist;
     pctWithin500 := toFixed (within500 / length_num table * #100)%js 1;
     pctWithin1000 := toFixed (within1000 / length_num table * #100)%js 1;
     pctWithinStationMile :=
       if (0 <? length e.(stationsList))%nat
       then toFixed (withinStationMile / length_num table * #100)%js 1
       else "0" |}.

Definition precomputeAddressDistances (addresses : list Location) : Worker unit :=
  startTime ← performance_now;
  e ← get_engine;
  _ ← put_engine (set_addressesWithDistances [] e);
  _ ← for_of (imap pair addresses) (precompute_step (length addresses)) tt;
  now ← performance_now;
  let elapsed := (now - startTime)%js in
  e ← get_engine;
  postMessage
    (addressDistancesReady (length_num e.(addressesWithDistances)) elapsed (summary_of e)).

(** The object [stats] as it is created. *)
Definition initial_stats (areaSqMiles : float) : Stats :=
  {| hydrantCount := (#0)%js;
     stationCount := (#0)%js;
     addressCount := (#0)%js;
     addressesWithin500ft := (#0)%js;
     addressesWithin1000ft := (#0)%js;
     addressesUnderserved := (#0)%js;
     addressesWithinStationMile := (#0)%js;
     avgDistanceToHydrant := (#0)%js;
     avgDistanceToStation := (#0)%js;
     minDistance := Infinity;
     maxDistance := (#0)%js;
     areaSqMiles := areaSqMiles;
     addressDensity := (#0)%js;
     hydrantDensityPerSqMile := (#0)%js;
     isRural := false;
     ruralNote := None;
     coveragePercent500 := None;
     coveragePercent1000 := None;
     stationCoveragePercent := None;
     hydrantDensity := None;
     areaType := None |}.

(** [x++] on a field holding [x]. *)
Definition incr (x : float) : float := (x + #1)%js.

Definition count_hydrant (zone : Feature) (h : Location) (stats : Stats) : Completion Stats :=
  match pointInPolygon h.(lat) h.(lon) zone with
  | Normal true => Normal (set_hydrantCount (incr stats.(hydrantCount)) stats)
  | Normal false => Normal stats
  | TypeError => TypeError
  end.

Definition count_station (zone : Feature) (s : Location) (stats : Stats) : Completion Stats :=
  match pointInPolygon s.(lat) s.(lon) zone with
  | Normal true => Normal (set_stationCount (incr stats.(stationCount)) stats)
  | Normal false => Normal stats
  | TypeError => TypeError
  end.

(** The body of the loop over [addressesWithDistances]; the local variables
    are [stats], [totalHydrantDistance] and [totalStationDistance]. *)
Definition count_address (zone : Feature) (addr : AddressRecord)
  (st : Stats * float * float) : Completion (Stats * float * float) :=
  let '(stats, totalHydrantDistance, totalStationDistance) := st in
  match pointInPolygon addr.(source).(lat) addr.(source).(lon) zone with
  | Normal true =>
      let stats := set_addressCount (incr stats.(addressCount)) stats in
      let totalHydrantDistance := (totalHydrantDistance + addr.(nearestHydrantDist))%js in
      let totalStationDistance := (totalStationDistance + addr.(nearestStationDist))%js in
      let stats :=
        if (addr.(nearestHydrantDist) < stats.(minDistance))%js
        then set_minDistance addr.(nearestHydrantDist) stats else stats in
      let stats :=
        if (addr.(nearestHydrantDist) > stats.(maxDistance))%js
        then set_maxDistance addr.(nearestHydrantDist) stats else stats in
      let stats :=
        if addr.(within500ft)
        then set_addressesWithin500ft (incr stats.(addressesWithin500ft)) stats
        else stats in
      let stats :=
        if addr.(within1000ft)
        then set_addressesWithin1000ft (incr stats.(addressesWithin1000ft)) stats
        else stats in
      let stats :=
        if addr.(underserved)
        then set_addressesUnderserved (incr stats.(addressesUnderserved)) stats
        else stats in
      let stats :=
        if addr.(withinStationMile)
        then set_addressesWithinStationMile (incr stats.(addressesWithinStationMile)) stats
        else stats in
      Normal (stats, totalHydrantDistance, totalStationDistance)
  | Normal false => Normal st
  | TypeError => TypeError
  end.

(** The block [if (stats.addressCount > 0) { ... } else { ... }]. *)
Definition derive_ratios (totalHydrantDistance totalStationDistance : float)
  (stats : Stats) : Stats :=
  if (stats.(addressCount) > #0)%js then
    let stats :=
      set_avgDistanceToHydrant (totalHydrantDistance / stats.(addressCount))%js stats in
    let stats :=
      set_avgDistanceToStation (totalStationDistance / stats.(addressCount))%js stats in
    let stats :=
      set_coveragePercent500
        (Some (toFixed (stats.(addressesWithin500ft) / stats.(addressCount) * #100)%js 1))
        stats in
    let stats :=
      set_coveragePercent1000
        (Some (toFixed (stats.(addressesWithin1000ft) / stats.(addressCount) * #100)%js 1))
        stats in
    let stats :=
      set_stationCoveragePercent
        (Some (toFixed
                 (stats.(addressesWithinStationMile) / stats.(addressCount) * #100)%js 1))
        stats in
    set_hydrantDensity
      (Some (toFixed (stats.(hydrantCount) / stats.(addressCount) * #1000)%js 1)) stats
  else
    let stats := set_coveragePercent500 (Some "0") stats in
    let stats := set_coveragePercent1000 (Some "0") stats in
    let stats := set_stationCoveragePercent (Some "0") stats in
    set_hydrantDensity (Some "0") stats.

Definition rural_note : string :=
  "Low population density area. Fire departments may use tanker trucks or draft water from natural sources.".

(** The block [if (areaSqMiles > 0) { ... }]. *)
Definition classify (areaSqMiles : float) (stats : Stats) : Stats :=
  if (areaSqMiles > #0)%js then
    let stats := set_addressDensity (stats.(addressCount) / areaSqMiles)%js stats in
    let stats := set_hydrantDensityPerSqMile (stats.(hydrantCount) / areaSqMiles)%js stats in
    if (stats.(addressDensity) < #100)%js then
      let stats := set_isRural true stats in
      let stats := set_areaType (Some "Rural") stats in
      set_ruralNote (Some rural_note) stats
    else if (stats.(addressDensity) < #1000)%js then
      let stats := set_areaType (Some "Suburban") stats in
      set_ruralNote None stats
    else
      let stats := set_areaType (Some "Urban") stats in
      set_ruralNote None stats
  else stats.

Definition analyzeZipCode (zipCodeFeature : Feature) : Worker unit :=
  startTime ← performance_now;
  areaSqMiles ← lift (calculatePolygonArea zipCodeFeature);
  let stats := initial_stats areaSqMiles in
  e ← get_engine;
  stats ← lift (for_of_pure e.(hydrantsList) (count_hydrant zipCodeFeature) stats);
  e ← get_engine;
  stats ← lift (for_of_pure e.(stationsList) (count_station zipCodeFeature) stats);
  e ← get_engine;
  '(stats, totalHydrantDistance, totalStationDistance) ←
    lift (for_of_pure e.(addressesWithDistances) (count_address zipCodeFeature)
                      (stats, (#0)%js, (#0)%js));
  let stats := derive_ratios totalHydrantDistance totalStationDistance stats in
  let stats := classify areaSqMiles stats in
  now ← performance_now;
  let elapsed := (now - startTime)%js in
  postMessage (zipCodeAnalysisReady stats elapsed).

(** [self.onmessage]. *)
Definition onmessage (r : Request) : Worker unit :=
  match r with
  | buildHydrantIndexReq hydrants => buildHydrantIndex hydrants
  | setStationsReq stations => setStations stations
  | precomputeAddressDistancesReq addresses => precomputeAddressDistances addresses
  | analyzeZipCodeReq zipCodeFeature => analyzeZipCode zipCodeFeature
  end.

End Engine.

(** The worker as the module creates it: two empty grids of cell sizes
    0.005 and 0.01 degrees and empty lists. *)
Definition initial_engine : Engine :=
  {| hydrantGrid := new_SpatialGrid (dec 5 3);
     stationGrid := new_SpatialGrid (dec 1 2);
     addressesWithDistances := [];
     hydrantsList := [];
     stationsList := [] |}.

Definition initial_world (clock : nat -> float) : World :=
  {| engine := initial_engine; outbox := []; clock := clock; ticks := 0 |}.

(** ** Notions used to state the properties *)

(** A sequence of [insert] calls, one per point, in the order of the list. *)
Definition insert_all (g : SpatialGrid) (pts : list Point) : SpatialGrid :=
  fold_left (fun g p => insert g p.(plat) p.(plon) p.(data)) pts g.

(** The nearest point as the specification words it: a point of the whole
    point set whose distance to the query no other point beats. *)
Definition globally_nearest (Math : MathObject) (pts : list Point) (lat lon : float)
  (p : Point) : Prop :=
  In p pts /\
  forall q, In q pts ->
    (haversineDistance Math lat lon p.(plat) p.(plon) <=
     haversineDistance Math lat lon q.(plat) q.(plon))%js = true.

(** Two numbers that [===] identifies. *)
Definition same_number (x y : float) : Prop := SFcompare x y = Some Eq.

(** The ring with a copy of its first vertex appended. *)
Definition close_ring (coords : Ring) : Ring :=
  match coords with
  | [] => []
  | v :: _ => coords ++ [v]
  end.

(** Every outer ring of the geometry exists and has fewer than [n]
    vertices; a geometry of another kind has no ring at all. *)
Definition rings_below (n : nat) (g : Geometry) : Prop :=
  match g with
  | Polygon coordinates =>
      exists r, head coordinates = Some r /\ (length r < n)%nat
  | MultiPolygon coordinates =>
      Forall (fun poly => exists r, head poly = Some r /\ (length r < n)%nat) coordinates
  | OtherGeometry _ => True
  end.

(** Every polygon of the geometry has its outer ring. *)
Definition has_rings (g : Geometry) : Prop :=
  match g with
  | Polygon coordinates => coordinates <> []
  | MultiPolygon coordinates => Forall (fun poly => poly <> []) coordinates
  | OtherGeometry _ => True
  end.

(** The polygon with a copy of the first vertex appended to its outer
    ring, and the geometry with every polygon so closed. *)
Definition close_outer (poly : list Ring) : list Ring :=
  match poly with
  | [] => []
  | r :: holes => close_ring r :: holes
  end.

Definition close_geometry (g : Geometry) : Geometry :=
  match g with
  | Polygon coordinates => Polygon (close_outer coordinates)
  | MultiPolygon coordinates => MultiPolygon (map close_outer coordinates)
  | OtherGeometry type => OtherGeometry type
  end.

(** The number of crossings, modulo two, of the edges leading from [prev]
    through the vertices [vs]. *)
Fixpoint edge_parity (lat lon : float) (prev : float * float) (vs : Ring) : bool :=
  match vs with
  | [] => false
  | v :: vs' => xorb (crosses lat lon v prev) (edge_parity lat lon v vs')
  end.

(** A computation that leaves the module-level variables as they were,
    whether it completes or throws. *)
Definition preserves_engine {A} (c : Worker A) : Prop :=
  forall w, engine (snd (c w)) = engine w.

(** The grid points that [buildHydrantIndex] and [setStations] insert for a
    hydrant and for a station: the station's point carries the station. *)
Definition hydrant_point (h : Location) : Point :=
  {| plat := h.(lat); plon := h.(lon); data := None |}.

Definition station_point (s : Location) : Point :=
  {| plat := s.(lat); plon := s.(lon); data := Some s |}.

(** The worker handling a sequence of messages, one after the other; a
    handler that throws leaves the worker running with what it had written. *)
Definition process (Math : MathObject) (requests : list Request) (w : World) : World :=
  fold_left (fun w r => snd (onmessage Math r w)) requests w.

(** The statistics [analyzeZipCode] computes from the engine before it
    posts them: the area, the three counting loops, the ratios and the
    classification. *)
Definition zone_statistics (Math : MathObject) (e : Engine) (zone : Feature)
  : Completion Stats :=
  match calculatePolygonArea Math zone with
  | TypeError => TypeError
  | Normal areaSqMiles =>
      match for_of_pure e.(hydrantsList) (count_hydrant zone)
                        (initial_stats areaSqMiles) with
      | TypeError => TypeError
      | Normal stats =>
          match for_of_pure e.(stationsList) (count_station zone) stats with
          | TypeError => TypeError
          | Normal stats =>
              match for_of_pure e.(addressesWithDistances) (count_address zone)
                                (stats, (#0)%js, (#0)%js) with
              | TypeError => TypeError
              | Normal (stats, totalHydrantDistance, totalStationDistance) =>
                  Normal (classify areaSqMiles
                            (derive_ratios totalHydrantDistance totalStationDistance
                                           stats))
              end
          end
      end
  end.

(** The two grids agree with the two lists: each holds, in a grid of its
    own cell size, exactly the points of the hydrants and of the stations of
    the lists, inserted in the order of the lists. *)
Definition engine_consistent (e : Engine) : Prop :=
  hydrantGrid e =
    insert_all (new_SpatialGrid (dec 5 3)) (map hydrant_point (hydrantsList e)) /\
  stationGrid e =
    insert_all (new_SpatialGrid (dec 1 2)) (map station_point (stationsList e)).

(** ** Sample data

    Hydrants, stations and addresses around Sacramento and a few inputs at
    the edges, on which the engine is run below. *)

Module Sample.

Definition at_ (lat lon : float) : Point := {| plat := lat; plon := lon; data := None |}.

(** A query in the south-west corner of its cell of the hydrant grid. *)
Definition qlat : float := dec 385801 4.
Definition qlon : float := dec (-1214999) 4.

(** A hydrant in the diagonal neighbour cell, about 4538 ft from the query,
    and one two cells to the west, about 1483 ft from it. *)
Definition far_hydrant : Point := at_ (dec 385899 4) (dec (-1214901) 4).
Definition near_hydrant : Point := at_ (dec 385801 4) (dec (-1215051) 4).

Definition hydrant_cell : float := dec 5 3.

Definition two_hydrants : SpatialGrid :=
  insert_all (new_SpatialGrid hydrant_cell) [far_hydrant; near_hydrant].

Definition lone_hydrant : SpatialGrid :=
  insert_all (new_SpatialGrid hydrant_cell) [near_hydrant].

(** A point whose coordinates are missing, and so NaN. *)
Definition lost_hydrant : SpatialGrid :=
  insert_all (new_SpatialGrid hydrant_cell) [at_ NaN NaN].

(** Two hydrants at the same distance north and east of the origin. *)
Definition north : Point := at_ (dec 1 3) (#0)%js.
Definition east : Point := at_ (#0)%js (dec 1 3).

End Sample.

(** A small run of the worker: one hydrant, one station and one address in
    Sacramento, indexed and precomputed, and a few zones. *)
Module Scenario.

Definition place (la lo : float) (name : string) : Location :=
  {| lat := la; lon := lo; props := [("name", name)] |}.

Definition hydrants : list Location := [place (dec 3858 2) (dec (-12149) 2) "H-1"].
Definition stations : list Location := [place (dec 3860 2) (dec (-12150) 2) "Station 1"].
Definition home : Location := place (dec 38581 3) (dec (-121491) 3) "1 Main St".
Definition addresses : list Location := [home].

Definition clock (n : nat) : float := (#(Z.of_nat n))%js.

(** The worker after the hydrants alone, after hydrants and stations, and
    after the precomputation pass. *)
Definition hydrants_only : World :=
  process ref_Math [buildHydrantIndexReq hydrants] (initial_world clock).

Definition indexing : list Request :=
  [buildHydrantIndexReq hydrants; setStationsReq stations].

Definition indexed : World := process ref_Math indexing (initial_world clock).

Definition precomputed : World :=
  snd (precomputeAddressDistances ref_Math addresses indexed).

(** The record of the one address. *)
Definition home_record : AddressRecord := address_record ref_Math (engine indexed) home.

(** A closed square around the three places, a square around the origin, a
    ring of one vertex, and a pair of the two squares. *)
Definition square (west south east north : float) : Ring :=
  [(west, south); (east, south); (east, north); (west, north); (west, south)].

Definition downtown_ring : Ring :=
  square (dec (-1216) 1) (dec 385 1) (dec (-1214) 1) (dec 387 1).

Definition origin_ring : Ring := square (#(-1))%js (#(-1))%js (#1)%js (#1)%js.

Definition downtown : Feature := {| geometry := Polygon [downtown_ring] |}.
Definition elsewhere : Feature := {| geometry := Polygon [origin_ring] |}.
Definition dot : Feature := {| geometry := Polygon [[(dec (-1215) 1, dec 385 1)]] |}.
Definition both : Feature :=
  {| geometry := MultiPolygon [[origin_ring]; [downtown_ring]] |}.

Definition downtown_area : float :=
  Eval vm_compute in
    match calculatePolygonArea ref_Math downtown with
    | Normal a => a
    | TypeError => NaN
    end.

End Scenario.

(** ** The order of numbers

    [SFcompare] orders the numbers other than NaN lexicographically by
    sign class, exponent and mantissa. *)

Definition rank (x : float) : option (Z * Z * Z) :=
  match x with
  | S754_nan => None
  | S754_infinity s => Some (if s then -2 else 2, 0, 0)
  | S754_zero _ => Some (0, 0, 0)
  | S754_finite s m e => Some (if s then (-1, - e, - Zpos m) else (1, e, Zpos m))
  end.

Definition lex_lt (a b : Z * Z * Z) : Prop :=
  let '(a1, a2, a3) := a in
  let '(b1, b2, b3) := b in
  a1 < b1 \/ (a1 = b1 /\ (a2 < b2 \/ (a2 = b2 /\ a3 < b3))).

Lemma SFcompare_rank (x y : float) :
  match rank x, rank y with
  | Some a, Some b =>
      (SFcompare x y = Some Lt /\ lex_lt a b) \/
      (SFcompare x y = Some Eq /\ a = b) \/
      (SFcompare x y = Some Gt /\ lex_lt b a)
  | _, _ => SFcompare x y = None
  end.
Proof.
  destruct x as [[]|[]| |[] mx ex], y as [[]|[]| |[] my ey]; simpl;
    try reflexivity; try solve [intuition lia];
    change (Pos.compare_cont Eq mx my) with (Pos.compare mx my);
    destruct (Z.compare_spec ex ey), (Pos.compare_spec mx my);
    subst; simpl; intuition lia.
Qed.

(** [order_with pairs] decides a goal about the order of numbers from the
    ranks of the pairs of numbers that [pairs] introduces. *)
Ltac order_with pairs :=
  unfold Num.ltb, Num.leb, Num.gtb, Num.geb, SFltb, SFleb, SFeqb, same_number in *;
  pairs;
  repeat match goal with
  | H : context [rank ?x] |- _ => destruct (rank x) as [[[? ?] ?]|]
  end;
  repeat match goal with
  | H : context [SFcompare ?x ?y] |- _ => destruct (SFcompare x y) as [[]|]
  | |- context [SFcompare ?x ?y] => destruct (SFcompare x y) as [[]|]
  end;
  unfold lex_lt in *; try discriminate; try reflexivity;
  intuition (try discriminate; try congruence; simplify_eq; try lia).

Ltac order2 x y :=
  order_with ltac:(pose proof (SFcompare_rank x y); pose proof (SFcompare_rank y x)).

Ltac order3 x y z :=
  order_with ltac:(pose proof (SFcompare_rank x y); pose proof (SFcompare_rank y z);
                   pose proof (SFcompare_rank x z)).

Lemma ltb_irrefl (x : float) : (x < x)%js = false.
Proof. order_with ltac:(pose proof (SFcompare_rank x x)). Qed.

Lemma ltb_trans (x y z : float) :
  (x < y)%js = true -> (y < z)%js = true -> (x < z)%js = true.
Proof. intros Hxy Hyz. order3 x y z. Qed.

Lemma leb_trans (x y z : float) :
  (x <= y)%js = true -> (y <= z)%js = true -> (x <= z)%js = true.
Proof. intros Hxy Hyz. order3 x y z. Qed.

Lemma ltb_not_nan (x y : float) :
  (x < y)%js = true -> is_nan x = false /\ is_nan y = false.
Proof. destruct x, y; simpl; intros H; try discriminate; auto. Qed.

Lemma rank_not_nan (x : float) : is_nan x = false -> rank x <> None.
Proof. destruct x; simpl; congruence. Qed.

(** Of two numbers neither of which is below the other, and neither NaN,
    each equals the other. *)
Lemma not_ltb_same (x y : float) :
  is_nan x = false -> is_nan y = false ->
  (x < y)%js = false -> (y < x)%js = false -> same_number x y.
Proof.
  intros Hx%rank_not_nan Hy%rank_not_nan Hxy Hyx. order2 x y.
Qed.

Lemma not_ltb_leb (x y : float) :
  is_nan x = false -> is_nan y = false ->
  (y < x)%js = false -> (x <= y)%js = true.
Proof.
  intros Hx%rank_not_nan Hy%rank_not_nan Hyx. order2 x y.
Qed.

Lemma leb_not_ltb (x y : float) : (x <= y)%js = true -> (y < x)%js = false.
Proof. intros H. order2 x y. Qed.

Lemma same_number_leb (x y z : float) :
  same_number x y -> (x <= z)%js = true -> (y <= z)%js = true.
Proof. intros Hxy Hxz. order3 x y z. Qed.

Lemma same_number_sym (x y : float) : same_number x y -> same_number y x.
Proof. intros H. order2 x y. Qed.

(** ** The scan for the best candidate *)

Section Scan.

Variable Math : MathObject.
Variables lat lon : float.

Abbreviation dist p := (haversineDistance Math lat lon (plat p) (plon p)).
Abbreviation nothing := {| point := None; distance := Infinity |}.

(** The invariant of the loop: the best so far is either the initial
    record or a candidate seen with its distance, a number below infinity,
    and no candidate seen is closer. *)
Lemma scan_invariant (cands seen : list Point) (best : Nearest) :
  (best = nothing \/
   exists p, In p seen /\ best = {| point := Some p; distance := dist p |} /\
             (dist p < Infinity)%js = true) ->
  (forall c, In c seen -> (dist c < best.(distance))%js = false) ->
  let r := fold_left (closer Math lat lon) cands best in
  (r = nothing \/
   exists p, In p (seen ++ cands) /\ r = {| point := Some p; distance := dist p |} /\
             (dist p < Infinity)%js = true) /\
  (forall c, In c (seen ++ cands) -> (dist c < r.(distance))%js = false).
Proof.
  revert seen best.
  induction cands as [|c cands IH]; intros seen best Hbest Hmin; simpl.
  - rewrite app_nil_r. auto.
  - replace (seen ++ c :: cands) with ((seen ++ [c]) ++ cands)
      by (rewrite <- app_assoc; reflexivity).
    apply IH; unfold closer.
    + destruct (dist c < distance best)%js eqn:Hlt.
      * right. exists c. split; [apply in_or_app; right; left; reflexivity|].
        split; [reflexivity|].
        destruct Hbest as [->|(p & _ & -> & Hp)]; simpl in Hlt; [exact Hlt|].
        exact (ltb_trans _ _ _ Hlt Hp).
      * destruct Hbest as [->|(p & Hin & -> & Hp)]; [left; reflexivity|].
        right. exists p. split; [apply in_or_app; left; exact Hin|]. auto.
    + intros c' [Hc'|Hc']%in_app_or.
      * specialize (Hmin c' Hc').
        destruct (dist c < distance best)%js eqn:Hlt; simpl; [|exact Hmin].
        destruct (dist c' < dist c)%js eqn:Hcc; [|reflexivity].
        rewrite (ltb_trans _ _ _ Hcc Hlt) in Hmin. discriminate.
      * destruct Hc' as [<-|[]].
        destruct (dist c < distance best)%js eqn:Hlt; simpl; [|exact Hlt].
        apply ltb_irrefl.
Qed.

Lemma nearest_of_spec (cands : list Point) :
  let r := nearest_of Math lat lon cands in
  (r = nothing \/
   exists p, In p cands /\ r = {| point := Some p; distance := dist p |} /\
             (dist p < Infinity)%js = true) /\
  (forall c, In c cands -> (dist c < r.(distance))%js = false).
Proof.
  apply (scan_invariant cands [] nothing).
  - left. reflexivity.
  - intros c [].
Qed.

(** As soon as one candidate has a distance below infinity, the scan
    returns a candidate, with its distance, that no candidate beats. *)
Lemma nearest_of_some (cands : list Point) (c0 : Point) :
  In c0 cands -> (dist c0 < Infinity)%js = true ->
  exists p, In p cands /\
    nearest_of Math lat lon cands = {| point := Some p; distance := dist p |} /\
    (dist p < Infinity)%js = true /\
    forall c, In c cands -> (dist c < dist p)%js = false.
Proof.
  intros Hin Hlt.
  destruct (nearest_of_spec cands) as [[Hr|(p & Hp & Hr & Hfin)] Hmin].
  - specialize (Hmin c0 Hin). rewrite Hr in Hmin. simpl in Hmin. congruence.
  - exists p. rewrite Hr in Hmin. simpl in Hmin. auto.
Qed.

(** When no candidate has a distance below infinity, the scan keeps the
    initial record. *)
Lemma nearest_of_none (cands : list Point) :
  (forall c, In c cands -> (dist c < Infinity)%js = false) ->
  nearest_of Math lat lon cands = nothing.
Proof.
  intros Hall.
  destruct (nearest_of_spec cands) as [[Hr|(p & Hp & Hr & Hfin)] _]; [exact Hr|].
  rewrite (Hall p Hp) in Hfin. discriminate.
Qed.

(** Two lists with the same members are scanned to the same distance, up
    to [===], and to points at that distance. *)
Lemma nearest_of_members (l1 l2 : list Point) :
  (forall p, In p l1 <-> In p l2) ->
  let r1 := nearest_of Math lat lon l1 in
  let r2 := nearest_of Math lat lon l2 in
  (r1 = nothing /\ r2 = nothing) \/
  exists p1 p2, In p1 l1 /\ In p2 l1 /\
    r1 = {| point := Some p1; distance := dist p1 |} /\
    r2 = {| point := Some p2; distance := dist p2 |} /\
    same_number (dist p1) (dist p2).
Proof.
  intros Hmem r1 r2.
  destruct (nearest_of_spec l1) as [[H1|(p1 & Hp1 & H1 & Hf1)] Hmin1];
    destruct (nearest_of_spec l2) as [[H2|(p2 & Hp2 & H2 & Hf2)] Hmin2];
    fold r1 in H1, Hmin1; fold r2 in H2, Hmin2.
  - left. auto.
  - apply Hmem in Hp2. specialize (Hmin1 p2 Hp2).
    rewrite H1 in Hmin1. simpl in Hmin1. congruence.
  - apply Hmem in Hp1. specialize (Hmin2 p1 Hp1).
    rewrite H2 in Hmin2. simpl in Hmin2. congruence.
  - right. exists p1, p2.
    assert (Hp2' : In p2 l1) by (apply Hmem; exact Hp2).
    assert (Hp1' : In p1 l2) by (apply Hmem; exact Hp1).
    repeat split; auto.
    specialize (Hmin1 p2 Hp2'). specialize (Hmin2 p1 Hp1').
    rewrite H1 in Hmin1. rewrite H2 in Hmin2. simpl in Hmin1, Hmin2.
    apply not_ltb_same.
    + exact (proj1 (ltb_not_nan _ _ Hf1)).
    + exact (proj1 (ltb_not_nan _ _ Hf2)).
    + exact Hmin2.
    + exact Hmin1.
Qed.

End Scan.

(** ** The ring search *)

Section RingSearch.

Variable Math : MathObject.
Variable g : SpatialGrid.
Variables lat lon : float.

Abbreviation dist p := (haversineDistance Math lat lon (plat p) (plon p)).
Abbreviation nothing := {| point := None; distance := Infinity |}.
Abbreviation cands r := (getNearbyPoints g lat lon r).

Lemma findNearest_from_skip (pre radii : list Z) :
  (forall r, In r pre -> cands r = []) ->
  findNearest_from Math g lat lon (pre ++ radii) = findNearest_from Math g lat lon radii.
Proof.
  induction pre as [|r pre IH]; intros Hempty; simpl; [reflexivity|].
  rewrite (Hempty r) by (left; reflexivity). simpl.
  apply IH. intros r' Hr'. apply Hempty. right. exact Hr'.
Qed.

Lemma findNearest_from_hit (r : Z) (radii : list Z) :
  cands r <> [] ->
  findNearest_from Math g lat lon (r :: radii) = nearest_of Math lat lon (cands r).
Proof.
  intros Hne. simpl. destruct (cands r) as [|c l]; [congruence|reflexivity].
Qed.

Lemma radii_split (r : Z) :
  1 <= r <= 20 -> seqZ 1 20 = seqZ 1 (r - 1) ++ r :: seqZ (r + 1) (20 - r).
Proof.
  intros Hr.
  replace 20 with ((r - 1) + (1 + (20 - r))) at 1 by lia.
  rewrite seqZ_app by lia.
  f_equal. rewrite (seqZ_cons (1 + (r - 1))) by lia.
  f_equal; [lia|]. f_equal; lia.
Qed.

(** The search stops at the first radius whose block holds a point. *)
Lemma findNearest_first (r : Z) :
  1 <= r <= 20 ->
  (forall r', 1 <= r' < r -> cands r' = []) ->
  cands r <> [] ->
  findNearest Math g lat lon = nearest_of Math lat lon (cands r).
Proof.
  intros Hr Hbelow Hne. unfold findNearest.
  rewrite (radii_split r Hr), findNearest_from_skip.
  - apply findNearest_from_hit. exact Hne.
  - intros r' Hr'. apply Hbelow.
    apply list_elem_of_In, elem_of_seqZ in Hr'. lia.
Qed.

Lemma findNearest_nothing :
  (forall r, 1 <= r <= 20 -> cands r = []) ->
  findNearest Math g lat lon = nothing.
Proof.
  intros Hempty. unfold findNearest.
  rewrite <- (app_nil_r (seqZ 1 20)), findNearest_from_skip; [reflexivity|].
  intros r Hr. apply Hempty.
  apply list_elem_of_In, elem_of_seqZ in Hr. lia.
Qed.

End RingSearch.

(** ** The contents of the grid *)

Section GridContents.

Abbreviation key_of cs p := (getCell (new_SpatialGrid cs) (plat p) (plon p)).

Lemma getCell_cellSize (g g' : SpatialGrid) (lat lon : float) :
  cellSize g = cellSize g' -> getCell g lat lon = getCell g' lat lon.
Proof. unfold getCell. intros ->. reflexivity. Qed.

Lemma insert_cellSize (g : SpatialGrid) (lat lon : float) (d : option Location) :
  cellSize (insert g lat lon d) = cellSize g.
Proof. reflexivity. Qed.

Lemma insert_all_cellSize (pts : list Point) (g : SpatialGrid) :
  cellSize (insert_all g pts) = cellSize g.
Proof.
  revert g. induction pts as [|p pts IH]; intros g; [reflexivity|].
  unfold insert_all in *. simpl. rewrite IH. reflexivity.
Qed.

Lemma insert_all_snoc (g : SpatialGrid) (pts : list Point) (p : Point) :
  insert_all g (pts ++ [p]) = insert (insert_all g pts) (plat p) (plon p) (data p).
Proof. unfold insert_all. rewrite fold_left_app. reflexivity. Qed.

(** A cell of the grid after [insert]: the bucket of the point's own cell
    gains the point at its end, every other cell is untouched. *)
Lemma insert_lookup (g : SpatialGrid) (lat lon : float) (d : option Location)
  (k : CellKey) :
  grid (insert g lat lon d) !! k =
  if decide (k = getCell g lat lon)
  then Some (default [] (grid g !! k) ++ [{| plat := lat; plon := lon; data := d |}])
  else grid g !! k.
Proof.
  unfold insert. simpl.
  destruct (decide (k = getCell g lat lon)) as [->|Hne].
  - rewrite lookup_insert_eq.
    destruct (grid g !! getCell g lat lon) eqn:Hg; simpl.
    + rewrite Hg. reflexivity.
    + rewrite lookup_insert_eq. reflexivity.
  - rewrite lookup_insert_ne by congruence.
    destruct (grid g !! getCell g lat lon); [reflexivity|].
    rewrite lookup_insert_ne by congruence. reflexivity.
Qed.

(** After the points [pts] were inserted into an empty grid of cell size
    [cs], the bucket of a cell holds the points of that cell in insertion
    order, and a cell without point has no bucket. *)
Lemma insert_all_lookup (cs : float) (pts : list Point) (k : CellKey) :
  grid (insert_all (new_SpatialGrid cs) pts) !! k =
  match filter (fun p => key_of cs p = k) pts with
  | [] => None
  | l => Some l
  end.
Proof.
  induction pts as [|p pts IH] using rev_ind.
  - reflexivity.
  - rewrite insert_all_snoc, insert_lookup, filter_app, IH.
    rewrite (getCell_cellSize _ (new_SpatialGrid cs))
      by (rewrite insert_all_cellSize; reflexivity).
    replace {| plat := plat p; plon := plon p; data := data p |} with p
      by (destruct p; reflexivity).
    destruct (decide (k = key_of cs p)) as [->|Hne].
    + rewrite (filter_cons_True (fun q => key_of cs q = key_of cs p) p []) by reflexivity.
      rewrite filter_nil.
      destruct (filter (fun q => key_of cs q = key_of cs p) pts); reflexivity.
    + rewrite (filter_cons_False (fun q => key_of cs q = k) p []) by congruence.
      rewrite filter_nil, app_nil_r. reflexivity.
Qed.

(** The candidates collected at a radius are the inserted points whose cell
    is one of the cells of the block. *)
Lemma getNearbyPoints_insert_all (cs : float) (pts : list Point)
  (lat lon : float) (r : Z) (p : Point) :
  In p (getNearbyPoints (insert_all (new_SpatialGrid cs) pts) lat lon r) <->
  In p pts /\
  exists dx dy, In dx (offsets r) /\ In dy (offsets r) /\
    key_of cs p = cell_key (floor (lon / cs) + #dx)%js (floor (lat / cs) + #dy)%js.
Proof.
  unfold getNearbyPoints. rewrite insert_all_cellSize. simpl.
  rewrite in_flat_map. split.
  - intros (dx & Hdx & Hin). apply in_flat_map in Hin as (dy & Hdy & Hin).
    rewrite insert_all_lookup in Hin.
    destruct (filter _ pts) as [|q l] eqn:Hf; [destruct Hin|].
    rewrite <- Hf in Hin.
    apply list_elem_of_In, list_elem_of_filter in Hin as [Hk Hp].
    split; [apply list_elem_of_In; exact Hp|]. eauto.
  - intros (Hp & dx & dy & Hdx & Hdy & Hk).
    exists dx. split; [exact Hdx|]. apply in_flat_map. exists dy. split; [exact Hdy|].
    rewrite insert_all_lookup.
    assert (Hin : p ∈ filter (fun q => key_of cs q =
              cell_key (floor (lon / cs) + #dx)%js (floor (lat / cs) + #dy)%js) pts).
    { apply list_elem_of_filter. split; [exact Hk|apply list_elem_of_In; exact Hp]. }
    destruct (filter _ pts) as [|q l] eqn:Hf.
    + apply elem_of_nil in Hin. destruct Hin.
    + apply list_elem_of_In. exact Hin.
Qed.

(** Every candidate is an inserted point. *)
Lemma getNearbyPoints_inserted (cs : float) (pts : list Point)
  (lat lon : float) (r : Z) (p : Point) :
  In p (getNearbyPoints (insert_all (new_SpatialGrid cs) pts) lat lon r) -> In p pts.
Proof. intros H. apply getNearbyPoints_insert_all in H. tauto. Qed.

(** Inserting a permutation of the points collects the same candidates. *)
Lemma getNearbyPoints_Permutation (cs : float) (pts pts' : list Point)
  (lat lon : float) (r : Z) (p : Point) :
  Permutation pts pts' ->
  In p (getNearbyPoints (insert_all (new_SpatialGrid cs) pts) lat lon r) <->
  In p (getNearbyPoints (insert_all (new_SpatialGrid cs) pts') lat lon r).
Proof.
  intros HP. rewrite !getNearbyPoints_insert_all.
  split; intros [Hin Hk]; (split; [|exact Hk]).
  - eapply Permutation_in; eauto.
  - eapply Permutation_in; [apply Permutation_sym|]; eauto.
Qed.

End GridContents.

(** ** Nearest-point queries *)

(** Two indexes that collect the same candidates at every radius answer a
    query alike: both with the initial record, or with points at the same
    distance. *)
Lemma findNearest_from_members (Math : MathObject) (g1 g2 : SpatialGrid)
  (lat lon : float) (radii : list Z) :
  (forall r p, In p (getNearbyPoints g1 lat lon r) <-> In p (getNearbyPoints g2 lat lon r)) ->
  let r1 := findNearest_from Math g1 lat lon radii in
  let r2 := findNearest_from Math g2 lat lon radii in
  (r1 = {| point := None; distance := Infinity |} /\
   r2 = {| point := None; distance := Infinity |}) \/
  exists r p1 p2,
    In p1 (getNearbyPoints g1 lat lon r) /\ In p2 (getNearbyPoints g1 lat lon r) /\
    r1 = {| point := Some p1;
            distance := haversineDistance Math lat lon (plat p1) (plon p1) |} /\
    r2 = {| point := Some p2;
            distance := haversineDistance Math lat lon (plat p2) (plon p2) |} /\
    same_number (haversineDistance Math lat lon (plat p1) (plon p1))
                (haversineDistance Math lat lon (plat p2) (plon p2)).
Proof.
  intros Hmem. induction radii as [|r radii IH]; simpl; [left; auto|].
  pose proof (Hmem r) as Hr.
  destruct (getNearbyPoints g1 lat lon r) as [|c1 l1] eqn:E1;
    destruct (getNearbyPoints g2 lat lon r) as [|c2 l2] eqn:E2; simpl.
  - exact IH.
  - destruct (proj2 (Hr c2)); left; reflexivity.
  - destruct (proj1 (Hr c1)); left; reflexivity.
  - destruct (nearest_of_members Math lat lon (c1 :: l1) (c2 :: l2) Hr)
      as [?|(p1 & p2 & ? & ? & ? & ? & ?)]; [left; assumption|].
    right. exists r, p1, p2. rewrite E1. auto.
Qed.

(** C4, as amended.  [findNearest] tries the radii 1 to 20.  At the smallest
    radius [r] whose block of cells holds a point: if some collected
    candidate has a distance below infinity, it returns a collected
    candidate together with its distance, which no candidate beats and which
    is at most the distance of every candidate whose distance is a number;
    if no candidate has such a distance (all are NaN), it returns
    [{ point: null, distance: Infinity }].  It returns the same record when
    no radius up to 20 holds a point.  It never throws. *)
Theorem findNearest_ring_search (Math : MathObject) (g : SpatialGrid) (lat lon : float) :
  (forall r,
     1 <= r <= 20 ->
     (forall r', 1 <= r' < r -> getNearbyPoints g lat lon r' = []) ->
     getNearbyPoints g lat lon r <> [] ->
     ((exists c0, In c0 (getNearbyPoints g lat lon r) /\
         (haversineDistance Math lat lon (plat c0) (plon c0) < Infinity)%js = true) ->
      exists p,
        In p (getNearbyPoints g lat lon r) /\
        findNearest Math g lat lon =
          {| point := Some p;
             distance := haversineDistance Math lat lon (plat p) (plon p) |} /\
        (forall c, In c (getNearbyPoints g lat lon r) ->
           (haversineDistance Math lat lon (plat c) (plon c) <
            haversineDistance Math lat lon (plat p) (plon p))%js = false) /\
        (forall c, In c (getNearbyPoints g lat lon r) ->
           is_nan (haversineDistance Math lat lon (plat c) (plon c)) = false ->
           (haversineDistance Math lat lon (plat p) (plon p) <=
            haversineDistance Math lat lon (plat c) (plon c))%js = true)) /\
     ((forall c, In c (getNearbyPoints g lat lon r) ->
         (haversineDistance Math lat lon (plat c) (plon c) < Infinity)%js = false) ->
      findNearest Math g lat lon = {| point := None; distance := Infinity |})) /\
  ((forall r, 1 <= r <= 20 -> getNearbyPoints g lat lon r = []) ->
   findNearest Math g lat lon = {| point := None; distance := Infinity |}).
Proof.
  split.
  - intros r Hr Hbelow Hne.
    rewrite (findNearest_first Math g lat lon r Hr Hbelow Hne).
    split.
    + intros (c0 & Hc0 & Hfin).
      destruct (nearest_of_some Math lat lon _ c0 Hc0 Hfin) as (p & Hp & Hres & Hpfin & Hmin).
      exists p. repeat split; auto.
      intros c Hc Hnan. apply not_ltb_leb; auto.
      exact (proj1 (ltb_not_nan _ _ Hpfin)).
    + apply nearest_of_none.
  - apply findNearest_nothing.
Qed.

(** The statement above at a hydrant two cells west of the query: the
    block of radius 1 is empty, the block of radius 2 holds the hydrant. *)
Lemma findNearest_ring_search_witness :
  exists p,
    In p (getNearbyPoints Sample.lone_hydrant Sample.qlat Sample.qlon 2) /\
    findNearest ref_Math Sample.lone_hydrant Sample.qlat Sample.qlon =
      {| point := Some p;
         distance := haversineDistance ref_Math Sample.qlat Sample.qlon (plat p) (plon p) |}.
Proof.
  destruct (proj1 (findNearest_ring_search ref_Math Sample.lone_hydrant
                     Sample.qlat Sample.qlon) 2) as [Hsome _].
  - lia.
  - intros r' Hr'. assert (r' = 1) as -> by lia. vm_compute. reflexivity.
  - vm_compute. discriminate.
  - destruct Hsome as (p & Hp & Hres & _).
    + exists Sample.near_hydrant. split; [vm_compute; auto|vm_compute; reflexivity].
    + exists p. auto.
Defined.

(** C4 as stated fails when the candidates have no distance: with a point
    of missing (NaN) coordinates in the index and a query of missing
    coordinates, the block of radius 1 holds the point, yet the result is
    [{ point: null, distance: Infinity }]. *)
Lemma findNearest_nan_candidates :
  getNearbyPoints Sample.lost_hydrant NaN NaN 1 <> [] /\
  findNearest ref_Math Sample.lost_hydrant NaN NaN =
    {| point := None; distance := Infinity |}.
Proof. split; [vm_compute; discriminate|vm_compute; reflexivity]. Qed.

(** C2, as amended.  On an index built by inserting a point set, when the
    globally nearest point lies in the block of cells of the first radius
    that holds a point (and has a distance below infinity), [findNearest]
    returns a globally nearest point together with its distance, as a
    brute-force scan of the whole point set would. *)
Theorem findNearest_global_in_first_block (Math : MathObject) (cs : float)
  (pts : list Point) (lat lon : float) (r : Z) (best : Point) :
  let g := insert_all (new_SpatialGrid cs) pts in
  1 <= r <= 20 ->
  (forall r', 1 <= r' < r -> getNearbyPoints g lat lon r' = []) ->
  In best (getNearbyPoints g lat lon r) ->
  (haversineDistance Math lat lon (plat best) (plon best) < Infinity)%js = true ->
  globally_nearest Math pts lat lon best ->
  exists p,
    findNearest Math g lat lon =
      {| point := Some p;
         distance := haversineDistance Math lat lon (plat p) (plon p) |} /\
    globally_nearest Math pts lat lon p.
Proof.
  intros g Hr Hbelow Hbest Hfin [_ Hglobal].
  assert (Hne : getNearbyPoints g lat lon r <> []).
  { intros E. rewrite E in Hbest. destruct Hbest. }
  rewrite (findNearest_first Math g lat lon r Hr Hbelow Hne).
  destruct (nearest_of_some Math lat lon _ best Hbest Hfin) as (p & Hp & Hres & _ & Hmin).
  exists p. split; [exact Hres|].
  assert (Hin : In p pts) by (eapply getNearbyPoints_inserted; exact Hp).
  split; [exact Hin|].
  intros q Hq.
  pose proof (Hglobal p Hin) as Hbp.
  pose proof (Hglobal q Hq) as Hbq.
  pose proof (Hmin best Hbest) as Hnlt.
  set (db := haversineDistance Math lat lon (plat best) (plon best)) in *.
  set (dp := haversineDistance Math lat lon (plat p) (plon p)) in *.
  set (dq := haversineDistance Math lat lon (plat q) (plon q)) in *.
  clearbody db dp dq.
  order_with ltac:(pose proof (SFcompare_rank db dp); pose proof (SFcompare_rank db dq);
                   pose proof (SFcompare_rank dp dq)).
Qed.

(** The statement above on the index holding the hydrant two cells to the
    west of the query only. *)
Lemma findNearest_global_in_first_block_witness :
  exists p,
    findNearest ref_Math Sample.lone_hydrant Sample.qlat Sample.qlon =
      {| point := Some p;
         distance := haversineDistance ref_Math Sample.qlat Sample.qlon (plat p) (plon p) |} /\
    globally_nearest ref_Math [Sample.near_hydrant] Sample.qlat Sample.qlon p.
Proof.
  apply (findNearest_global_in_first_block ref_Math Sample.hydrant_cell
           [Sample.near_hydrant] Sample.qlat Sample.qlon 2 Sample.near_hydrant).
  - lia.
  - intros r' Hr'. assert (r' = 1) as -> by lia. vm_compute. reflexivity.
  - vm_compute. auto.
  - vm_compute. reflexivity.
  - split; [left; reflexivity|].
    intros q [<-|[]]. vm_compute. reflexivity.
Defined.

(** C2 as stated fails: with a hydrant in the diagonal neighbour cell and a
    nearer one two cells to the west, both within the 20 rings,
    [findNearest] returns the first, which is not the globally nearest. *)
Lemma findNearest_not_global :
  In Sample.near_hydrant (getNearbyPoints Sample.two_hydrants Sample.qlat Sample.qlon 2) /\
  point (findNearest ref_Math Sample.two_hydrants Sample.qlat Sample.qlon) =
    Some Sample.far_hydrant /\
  ~ globally_nearest ref_Math [Sample.far_hydrant; Sample.near_hydrant]
      Sample.qlat Sample.qlon Sample.far_hydrant.
Proof.
  split; [vm_compute; auto|]. split; [vm_compute; reflexivity|].
  intros [_ H]. specialize (H Sample.near_hydrant (or_intror (or_introl eq_refl))).
  vm_compute in H. discriminate.
Qed.

(** C8, as amended.  Inserting the same points in two orders into freshly
    cleared indexes of one cell size gives, for any query, either twice
    [{ point: null, distance: Infinity }] or two inserted points with the
    same distance to the query; the two results are equal whenever no two
    different inserted points are at the same distance from the query. *)
Theorem findNearest_insertion_order (Math : MathObject) (g0 : SpatialGrid)
  (pts pts' : list Point) (lat lon : float) :
  Permutation pts pts' ->
  let r1 := findNearest Math (insert_all (clear g0) pts) lat lon in
  let r2 := findNearest Math (insert_all (clear g0) pts') lat lon in
  ((r1 = {| point := None; distance := Infinity |} /\
    r2 = {| point := None; distance := Infinity |}) \/
   exists p1 p2,
     In p1 pts /\ In p2 pts /\
     r1 = {| point := Some p1;
             distance := haversineDistance Math lat lon (plat p1) (plon p1) |} /\
     r2 = {| point := Some p2;
             distance := haversineDistance Math lat lon (plat p2) (plon p2) |} /\
     same_number (haversineDistance Math lat lon (plat p1) (plon p1))
                 (haversineDistance Math lat lon (plat p2) (plon p2))) /\
  ((forall p p', In p pts -> In p' pts ->
      same_number (haversineDistance Math lat lon (plat p) (plon p))
                  (haversineDistance Math lat lon (plat p') (plon p')) -> p = p') ->
   r1 = r2).
Proof.
  intros HP r1 r2.
  assert (H : (r1 = {| point := None; distance := Infinity |} /\
               r2 = {| point := None; distance := Infinity |}) \/
              exists p1 p2,
                In p1 pts /\ In p2 pts /\
                r1 = {| point := Some p1;
                        distance := haversineDistance Math lat lon (plat p1) (plon p1) |} /\
                r2 = {| point := Some p2;
                        distance := haversineDistance Math lat lon (plat p2) (plon p2) |} /\
                same_number (haversineDistance Math lat lon (plat p1) (plon p1))
                            (haversineDistance Math lat lon (plat p2) (plon p2))).
  { destruct (findNearest_from_members Math
                (insert_all (clear g0) pts) (insert_all (clear g0) pts')
                lat lon (seqZ 1 20)) as [?|(r & p1 & p2 & H1 & H2 & ? & ? & ?)].
    - intros r p. apply getNearbyPoints_Permutation. exact HP.
    - left. assumption.
    - right. exists p1, p2.
      apply getNearbyPoints_inserted in H1. apply getNearbyPoints_inserted in H2.
      auto. }
  split; [exact H|].
  intros Hties.
  destruct H as [[-> ->]|(p1 & p2 & H1 & H2 & -> & -> & Hsame)]; [reflexivity|].
  rewrite (Hties p1 p2 H1 H2 Hsame). reflexivity.
Qed.

(** The statement above on the two hydrants of the sample, inserted in
    either order. *)
Lemma findNearest_insertion_order_witness :
  findNearest ref_Math
    (insert_all (clear (new_SpatialGrid Sample.hydrant_cell))
                [Sample.far_hydrant; Sample.near_hydrant]) Sample.qlat Sample.qlon =
  findNearest ref_Math
    (insert_all (clear (new_SpatialGrid Sample.hydrant_cell))
                [Sample.near_hydrant; Sample.far_hydrant]) Sample.qlat Sample.qlon.
Proof.
  apply (findNearest_insertion_order ref_Math (new_SpatialGrid Sample.hydrant_cell)
           [Sample.far_hydrant; Sample.near_hydrant]
           [Sample.near_hydrant; Sample.far_hydrant]).
  - apply perm_swap.
  - intros p p' [<-|[<-|[]]] [<-|[<-|[]]] H; try reflexivity;
      vm_compute in H; discriminate.
Defined.

(** C8 as stated fails: two hydrants at the same distance north and east
    of the query; each insertion order returns the hydrant inserted first. *)
Lemma findNearest_order_dependent :
  Permutation [Sample.north; Sample.east] [Sample.east; Sample.north] /\
  point (findNearest ref_Math
           (insert_all (clear (new_SpatialGrid Sample.hydrant_cell))
                       [Sample.north; Sample.east]) (#0)%js (#0)%js) = Some Sample.north /\
  point (findNearest ref_Math
           (insert_all (clear (new_SpatialGrid Sample.hydrant_cell))
                       [Sample.east; Sample.north]) (#0)%js (#0)%js) = Some Sample.east /\
  Sample.north <> Sample.east.
Proof.
  split; [apply perm_swap|].
  split; [vm_compute; reflexivity|].
  split; [vm_compute; reflexivity|].
  vm_compute. discriminate.
Qed.

(** ** The precomputation pass *)

Lemma for_of_cons {A S : Type} (x : A) (l : list A) (body : A -> S -> Worker S)
  (s : S) (w : World) :
  for_of (x :: l) body s w =
  match body x s w with
  | (Normal s', w') => for_of l body s' w'
  | (TypeError, w') => (TypeError, w')
  end.
Proof. reflexivity. Qed.

(** One turn of the loop: a record is pushed, and after every 5000th
    address a progress message is posted. *)
Lemma precompute_step_run (Math : MathObject) (total i : nat) (addr : Location)
  (w : World) :
  precompute_step Math total (i, addr) tt w =
  (Normal tt,
   {| engine :=
        set_addressesWithDistances
          (addressesWithDistances (engine w) ++ [address_record Math (engine w) addr])
          (engine w);
      outbox :=
        if Z.of_nat (i + 1) mod 5000 =? 0
        then outbox w ++ [progress (#(Z.of_nat (i + 1)))%js (#(Z.of_nat total))%js]
        else outbox w;
      clock := clock w;
      ticks := ticks w |}).
Proof.
  unfold precompute_step, mbind, Worker_bind. simpl.
  destruct (Z.of_nat (i + 1) mod 5000 =? 0); reflexivity.
Qed.

(** The loop over the addresses appends one record per address, in order,
    and touches nothing else of the engine. *)
Lemma precompute_loop (Math : MathObject) (total : nat) (ias : list (nat * Location))
  (w : World) :
  exists w',
    for_of ias (precompute_step Math total) tt w = (Normal tt, w') /\
    engine w' =
      set_addressesWithDistances
        (addressesWithDistances (engine w) ++
         map (fun ia => address_record Math (engine w) (snd ia)) ias) (engine w) /\
    clock w' = clock w /\ ticks w' = ticks w.
Proof.
  revert w. induction ias as [|[i addr] ias IH]; intros w.
  - exists w. simpl. rewrite app_nil_r. destruct w as [[] ? ? ?]. auto.
  - rewrite for_of_cons, precompute_step_run.
    match goal with |- context [for_of ias _ tt ?w1] =>
      destruct (IH w1) as (w' & Hrun & Heng & Hclock & Hticks) end.
    exists w'. split; [exact Hrun|]. simpl in *.
    rewrite Heng. rewrite <- app_assoc. auto.
Qed.

Lemma imap_pair_snd {A} (l : list A) : map snd (imap pair l) = l.
Proof.
  assert (H : forall (f : nat -> nat), map snd (imap (fun i a => (f i, a)) l) = l).
  { induction l as [|a l IH]; intros f; simpl; [reflexivity|].
    f_equal. apply (IH (fun i => f (S i))). }
  apply (H (fun i => i)).
Qed.

(** The table after the pass: the records of the addresses, in order,
    whatever the table held before. *)
Lemma precompute_table (Math : MathObject) (addresses : list Location) (w : World) :
  addressesWithDistances (engine (snd (precomputeAddressDistances Math addresses w))) =
  map (address_record Math (engine w)) addresses.
Proof.
  unfold precomputeAddressDistances, mbind, Worker_bind. simpl.
  match goal with |- context [for_of _ _ tt ?w1] =>
    destruct (precompute_loop Math (length addresses) (imap pair addresses) w1)
      as (w' & Hrun & Heng & _) end.
  rewrite Hrun. simpl. rewrite Heng. simpl.
  rewrite <- (map_map snd (address_record Math _)), imap_pair_snd.
  reflexivity.
Qed.

(** X1.  After the precomputation pass the table holds one record per
    address, in input order, and in every record
    [within500ft = (nearestHydrantDist <= 500)],
    [within1000ft = (nearestHydrantDist <= 1000)],
    [underserved = (nearestHydrantDist > 1000)] and
    [withinStationMile = (nearestStationDist <= 5280)]; hence [within500ft]
    implies [within1000ft], and [underserved] holds exactly when the
    distance to the nearest hydrant exceeds 1000 ft. *)
Theorem precompute_coverage_flags (Math : MathObject) (addresses : list Location)
  (w : World) :
  let table :=
    addressesWithDistances (engine (snd (precomputeAddressDistances Math addresses w))) in
  map source table = addresses /\
  forall a, In a table ->
    within500ft a = (nearestHydrantDist a <= #500)%js /\
    within1000ft a = (nearestHydrantDist a <= #1000)%js /\
    underserved a = (nearestHydrantDist a > #1000)%js /\
    withinStationMile a = (nearestStationDist a <= #5280)%js /\
    (within500ft a = true -> within1000ft a = true) /\
    (underserved a = true <-> (nearestHydrantDist a > #1000)%js = true).
Proof.
  intros table. subst table. rewrite precompute_table. split.
  - rewrite map_map. simpl. apply map_id.
  - intros a Ha. apply in_map_iff in Ha as (addr & <- & _). simpl.
    repeat split; auto.
    intros H. eapply leb_trans; [exact H|]. vm_compute. reflexivity.
Qed.

(** ** What each handler writes *)

Lemma fold_insert_hydrants (hydrants : list Location) (g : SpatialGrid) :
  fold_left (fun g h => insert g (lat h) (lon h) None) hydrants g =
  insert_all g (map hydrant_point hydrants).
Proof.
  revert g. induction hydrants as [|h l IH]; intros g; [reflexivity|].
  simpl. rewrite IH. reflexivity.
Qed.

Lemma fold_insert_stations (stations : list Location) (g : SpatialGrid) :
  fold_left (fun g s => insert g (lat s) (lon s) (Some s)) stations g =
  insert_all g (map station_point stations).
Proof.
  revert g. induction stations as [|s l IH]; intros g; [reflexivity|].
  simpl. rewrite IH. reflexivity.
Qed.

Lemma insert_all_allPoints (pts : list Point) (g : SpatialGrid) :
  allPoints (insert_all g pts) = allPoints g ++ pts.
Proof.
  revert g. induction pts as [|p pts IH]; intros g.
  - simpl. rewrite app_nil_r. reflexivity.
  - unfold insert_all in *. simpl. rewrite IH. simpl.
    rewrite <- app_assoc. destruct p; reflexivity.
Qed.

Lemma buildHydrantIndex_run (hydrants : list Location) (w : World) :
  buildHydrantIndex hydrants w =
  (Normal tt,
   {| engine :=
        set_hydrants
          (insert_all (clear (hydrantGrid (engine w))) (map hydrant_point hydrants))
          hydrants (engine w);
      outbox :=
        outbox w ++
        [hydrantIndexReady (length_num hydrants)
           (clock w (S (ticks w)) - clock w (ticks w))%js];
      clock := clock w;
      ticks := S (S (ticks w)) |}).
Proof.
  unfold buildHydrantIndex, mbind, Worker_bind. simpl.
  rewrite fold_insert_hydrants. reflexivity.
Qed.

Lemma setStations_run (stations : list Location) (w : World) :
  setStations stations w =
  (Normal tt,
   {| engine :=
        set_stations
          (insert_all (clear (stationGrid (engine w))) (map station_point stations))
          stations (engine w);
      outbox := outbox w ++ [stationsIndexReady (length_num stations)];
      clock := clock w;
      ticks := ticks w |}).
Proof.
  unfold setStations, mbind, Worker_bind. simpl.
  rewrite fold_insert_stations. reflexivity.
Qed.

(** The progress messages of a run over [total] addresses: one after every
    5000th address. *)
Lemma precompute_loop_outbox (Math : MathObject) (total : nat)
  (ias : list (nat * Location)) (w : World) :
  outbox (snd (for_of ias (precompute_step Math total) tt w)) =
  outbox w ++
  flat_map (fun ia =>
              if Z.of_nat (fst ia + 1) mod 5000 =? 0
              then [progress (#(Z.of_nat (fst ia + 1)))%js (#(Z.of_nat total))%js]
              else []) ias.
Proof.
  revert w. induction ias as [|[i addr] ias IH]; intros w.
  - simpl. rewrite app_nil_r. reflexivity.
  - rewrite for_of_cons, precompute_step_run, IH. simpl.
    destruct (Z.of_nat (i + 1) mod 5000 =? 0); simpl;
      [rewrite <- app_assoc|]; reflexivity.
Qed.

Lemma imap_pair_fst {A} (l : list A) : map fst (imap pair l) = seq 0 (length l).
Proof.
  assert (H : forall k, map fst (imap (fun i a => ((k + i)%nat, a)) l) = seq k (length l)).
  { induction l as [|a l IH]; intros k; simpl; [reflexivity|].
    rewrite Nat.add_0_r. f_equal.
    rewrite <- (IH (S k)). f_equal. apply imap_ext. intros i x _.
    simpl. f_equal. lia. }
  apply (H 0%nat).
Qed.

Lemma progress_marks (n : nat) (f : Z -> Message) :
  flat_map (fun i => if Z.of_nat (i + 1) mod 5000 =? 0 then [f (Z.of_nat (i + 1))] else [])
           (seq 0 n) =
  map (fun k => f (5000 * k)) (seqZ 1 (Z.of_nat n / 5000)).
Proof.
  induction n as [|n IH]; [reflexivity|].
  rewrite seq_S, flat_map_app, IH. simpl. rewrite app_nil_r.
  replace (Z.of_nat (n + 1)) with (Z.of_nat (S n)) by lia.
  destruct (Z.of_nat (S n) mod 5000 =? 0) eqn:E.
  - apply Z.eqb_eq in E.
    assert (Hdiv : Z.of_nat (S n) / 5000 = Z.of_nat n / 5000 + 1).
    { Z.to_euclidean_division_equations. lia. }
    rewrite Hdiv, seqZ_app, map_app by (try apply Z.div_pos; lia).
    f_equal. simpl. f_equal. f_equal.
    Z.to_euclidean_division_equations. lia.
  - apply Z.eqb_neq in E. rewrite app_nil_r.
    f_equal. f_equal. Z.to_euclidean_division_equations. lia.
Qed.

(** The world after [precomputeAddressDistances]. *)
Lemma precomputeAddressDistances_run (Math : MathObject) (addresses : list Location)
  (w : World) :
  let e' :=
    set_addressesWithDistances (map (address_record Math (engine w)) addresses)
                               (engine w) in
  precomputeAddressDistances Math addresses w =
  (Normal tt,
   {| engine := e';
      outbox :=
        outbox w ++
        map (fun k => progress (#(5000 * k))%js (length_num addresses))
            (seqZ 1 (Z.of_nat (length addresses) / 5000)) ++
        [addressDistancesReady (length_num addresses)
           (clock w (S (ticks w)) - clock w (ticks w))%js (summary_of e')];
      clock := clock w;
      ticks := S (S (ticks w)) |}).
Proof.
  intros e'. unfold precomputeAddressDistances, mbind, Worker_bind. simpl.
  match goal with |- context [for_of ?ias ?body tt ?w1] =>
    pose proof (precompute_loop_outbox Math (length addresses) ias w1) as Hout;
    destruct (precompute_loop Math (length addresses) ias w1)
      as (w' & Hrun & Heng & Hclock & Hticks) end.
  rewrite Hrun in *. simpl in *.
  assert (He : engine w' = e').
  { rewrite Heng. subst e'. simpl.
    rewrite <- (map_map snd (address_record Math _)), imap_pair_snd. reflexivity. }
  assert (Hlen : length_num (addressesWithDistances (engine w')) = length_num addresses).
  { rewrite He. subst e'. simpl. unfold length_num. rewrite length_map. reflexivity. }
  rewrite Hclock, Hticks, Hlen, He, Hout.
  replace (flat_map _ (imap pair addresses)) with
    (flat_map (fun i => if Z.of_nat (i + 1) mod 5000 =? 0
                        then [progress (#(Z.of_nat (i + 1)))%js
                                       (#(Z.of_nat (length addresses)))%js]
                        else []) (map fst (imap pair addresses))).
  - rewrite imap_pair_fst.
    rewrite (progress_marks (length addresses)
               (fun z => progress (#z)%js (#(Z.of_nat (length addresses)))%js)).
    unfold postMessage. simpl. rewrite <- app_assoc. reflexivity.
  - rewrite flat_map_concat_map, map_map, <- flat_map_concat_map. reflexivity.
Qed.

(** ** Polygons: when the helpers throw *)

Lemma any_ring_inside_total (lat lon : float) (rings : list (option Ring)) :
  Forall (fun r => r <> None) rings ->
  any_ring_inside lat lon rings =
  Normal (existsb (fun r => match r with
                            | Some coords => ring_inside lat lon coords
                            | None => false
                            end) rings).
Proof.
  induction 1 as [|[coords|] rings Hr _ IH]; simpl; [reflexivity| |congruence].
  destruct (ring_inside lat lon coords); [reflexivity|exact IH].
Qed.

Lemma head_is_Some {A} (l : list A) : l <> [] -> head l <> None.
Proof. destruct l; simpl; congruence. Qed.

Lemma Forall_head_rings (coordinates : list (list Ring)) :
  Forall (fun poly => poly <> []) coordinates ->
  Forall (fun r : option Ring => r <> None) (map head coordinates).
Proof.
  induction 1; simpl; constructor; auto using head_is_Some.
Qed.

(** On a geometry each of whose polygons has its outer ring,
    [pointInPolygon] does not throw. *)
Lemma pointInPolygon_total (lat lon : float) (zone : Feature) :
  has_rings (geometry zone) -> exists b, pointInPolygon lat lon zone = Normal b.
Proof.
  unfold pointInPolygon, has_rings.
  destruct (geometry zone) as [coordinates|coordinates|t]; intros H.
  - rewrite any_ring_inside_total; [eauto|].
    constructor; [apply head_is_Some; exact H|constructor].
  - rewrite any_ring_inside_total; [eauto|]. apply Forall_head_rings. exact H.
  - eauto.
Qed.

Lemma calculateRingArea_total (Math : MathObject) (r : option Ring) :
  r <> None -> exists a, calculateRingArea Math r = Normal a.
Proof. destruct r; [simpl; eauto|congruence]. Qed.

Lemma multi_area_total (Math : MathObject) (coordinates : list (list Ring)) (acc : float) :
  Forall (fun poly => poly <> []) coordinates ->
  exists a,
    for_of_pure coordinates
      (fun poly totalArea =>
         match calculateRingArea Math (head poly) with
         | Normal area => Normal (totalArea + area)%js
         | TypeError => TypeError
         end) acc = Normal a.
Proof.
  intros H. revert acc. induction H as [|poly l Hp _ IH]; intros acc; simpl; [eauto|].
  destruct (calculateRingArea_total Math (head poly) (head_is_Some _ Hp)) as [a ->].
  apply IH.
Qed.

Lemma multi_area_throws (Math : MathObject) (coordinates : list (list Ring)) (acc : float) :
  ~ Forall (fun poly => poly <> []) coordinates ->
  for_of_pure coordinates
    (fun poly totalArea =>
       match calculateRingArea Math (head poly) with
       | Normal area => Normal (totalArea + area)%js
       | TypeError => TypeError
       end) acc = TypeError.
Proof.
  revert acc. induction coordinates as [|poly l IH]; intros acc H.
  - destruct H. constructor.
  - simpl. destruct poly as [|r holes]; [reflexivity|]. simpl.
    apply IH. intros Hl. apply H. constructor; [discriminate|exact Hl].
Qed.

(** [calculatePolygonArea] throws exactly on a geometry one of whose
    polygons has no ring. *)
Lemma calculatePolygonArea_throws (Math : MathObject) (zone : Feature) :
  calculatePolygonArea Math zone = TypeError <-> ~ has_rings (geometry zone).
Proof.
  unfold calculatePolygonArea, has_rings.
  destruct (geometry zone) as [coordinates|coordinates|t].
  - destruct coordinates as [|r holes]; simpl; split; try congruence.
    intros H. destruct H. discriminate.
  - split.
    + intros E H. destruct (multi_area_total Math coordinates (#0)%js H) as [a Ha].
      congruence.
    + apply multi_area_throws.
  - split; [discriminate|tauto].
Qed.

Lemma any_ring_inside_missing (lat lon : float) (polys1 polys2 : list (list Ring)) :
  Forall (fun poly => poly <> []) polys1 ->
  any_ring_inside lat lon (map head (polys1 ++ [] :: polys2)) =
  if existsb (fun poly => match head poly with
                          | Some r => ring_inside lat lon r
                          | None => false
                          end) polys1
  then Normal true else TypeError.
Proof.
  induction 1 as [|[|r holes] polys1 Hp _ IH]; simpl; [reflexivity|congruence|].
  destruct (ring_inside lat lon r); [reflexivity|exact IH].
Qed.

(** X2.  When the polygon helpers throw.  [calculatePolygonArea] throws a
    TypeError exactly on a Polygon without ring or a MultiPolygon one of
    whose polygons has no ring.  [pointInPolygon] throws on a Polygon
    without ring; on a MultiPolygon it tests the polygons in order, so that
    a polygon without ring makes it throw only for the query points that
    none of the polygons before it contains; on a geometry with all its
    rings it does not throw. *)
Theorem polygon_helpers_throw (Math : MathObject) (lat lon : float) :
  (forall zone,
     calculatePolygonArea Math zone = TypeError <-> ~ has_rings (geometry zone)) /\
  pointInPolygon lat lon {| geometry := Polygon [] |} = TypeError /\
  (forall polys1 polys2,
     Forall (fun poly => poly <> []) polys1 ->
     pointInPolygon lat lon {| geometry := MultiPolygon (polys1 ++ [] :: polys2) |} =
     if existsb (fun poly => match head poly with
                             | Some r => ring_inside lat lon r
                             | None => false
                             end) polys1
     then Normal true else TypeError) /\
  (forall zone, has_rings (geometry zone) ->
     exists b, pointInPolygon lat lon zone = Normal b).
Proof.
  split; [intros zone; apply calculatePolygonArea_throws|].
  split; [reflexivity|].
  split; [intros polys1 polys2 H; apply any_ring_inside_missing; exact H|].
  intros zone. apply pointInPolygon_total.
Qed.

(** ** Zone analysis *)

(** [analyzeZipCode] reads the clock, computes the statistics from the
    engine and, unless that throws, reads the clock again and posts them. *)
Lemma analyzeZipCode_run (Math : MathObject) (zone : Feature) (w : World) :
  analyzeZipCode Math zone w =
  match zone_statistics Math (engine w) zone with
  | Normal stats =>
      (Normal tt,
       {| engine := engine w;
          outbox :=
            outbox w ++
            [zipCodeAnalysisReady stats (clock w (S (ticks w)) - clock w (ticks w))%js];
          clock := clock w;
          ticks := S (S (ticks w)) |})
  | TypeError =>
      (TypeError,
       {| engine := engine w; outbox := outbox w; clock := clock w;
          ticks := S (ticks w) |})
  end.
Proof.
  unfold analyzeZipCode, zone_statistics, mbind, Worker_bind, lift. simpl.
  destruct (calculatePolygonArea Math zone) as [area|]; [|reflexivity]. simpl.
  destruct (for_of_pure (hydrantsList (engine w)) _ _) as [s1|]; [|reflexivity]. simpl.
  destruct (for_of_pure (stationsList (engine w)) _ _) as [s2|]; [|reflexivity]. simpl.
  destruct (for_of_pure (addressesWithDistances (engine w)) _ _) as [[[s3 th] ts]|];
    reflexivity.
Qed.

(** The counting loops do not throw on a geometry with its rings. *)
Lemma count_hydrants_total (zone : Feature) (l : list Location) (stats : Stats) :
  has_rings (geometry zone) ->
  exists stats', for_of_pure l (count_hydrant zone) stats = Normal stats'.
Proof.
  intros H. revert stats. induction l as [|h l IH]; intros stats; simpl; [eauto|].
  unfold count_hydrant at 1.
  destruct (pointInPolygon_total (lat h) (lon h) zone H) as [[] ->]; apply IH.
Qed.

Lemma count_stations_total (zone : Feature) (l : list Location) (stats : Stats) :
  has_rings (geometry zone) ->
  exists stats', for_of_pure l (count_station zone) stats = Normal stats'.
Proof.
  intros H. revert stats. induction l as [|h l IH]; intros stats; simpl; [eauto|].
  unfold count_station at 1.
  destruct (pointInPolygon_total (lat h) (lon h) zone H) as [[] ->]; apply IH.
Qed.

Lemma count_addresses_total (zone : Feature) (l : list AddressRecord)
  (st : Stats * float * float) :
  has_rings (geometry zone) ->
  exists st', for_of_pure l (count_address zone) st = Normal st'.
Proof.
  intros H. revert st. induction l as [|a l IH]; intros [[stats th] ts]; simpl; [eauto|].
  unfold count_address at 1.
  destruct (pointInPolygon_total (lat (source a)) (lon (source a)) zone H) as [[] ->];
    apply IH.
Qed.

Lemma zone_statistics_total (Math : MathObject) (e : Engine) (zone : Feature) :
  has_rings (geometry zone) -> exists stats, zone_statistics Math e zone = Normal stats.
Proof.
  intros H. unfold zone_statistics.
  destruct (calculatePolygonArea Math zone) as [area|] eqn:Ea.
  - destruct (count_hydrants_total zone (hydrantsList e) (initial_stats area) H) as [s1 ->].
    destruct (count_stations_total zone (stationsList e) s1 H) as [s2 ->].
    destruct (count_addresses_total zone (addressesWithDistances e)
                (s2, (#0)%js, (#0)%js) H) as [[[s3 th] ts] ->].
    eauto.
  - apply calculatePolygonArea_throws in Ea. contradiction.
Qed.

Lemma zone_statistics_throws (Math : MathObject) (e : Engine) (zone : Feature) :
  ~ has_rings (geometry zone) -> zone_statistics Math e zone = TypeError.
Proof.
  intros H. unfold zone_statistics.
  rewrite (proj2 (calculatePolygonArea_throws Math zone) H). reflexivity.
Qed.

Lemma has_rings_dec (g : Geometry) : has_rings g \/ ~ has_rings g.
Proof.
  destruct g as [coordinates|coordinates|t]; simpl; [| |auto].
  - destruct coordinates; [right; congruence|left; congruence].
  - destruct (decide (Forall (fun poly : list Ring => poly <> []) coordinates)); auto.
Qed.

(** X3.  On a zone each of whose polygons has its outer ring, [analyzeZipCode]
    completes and posts exactly one message, [zipCodeAnalysisReady]; on any
    other zone it throws a TypeError and posts nothing.  In both cases the
    engine is left as it was. *)
Theorem analyzeZipCode_completes (Math : MathObject) (zone : Feature) (w : World) :
  (has_rings (geometry zone) ->
   exists stats elapsed,
     fst (analyzeZipCode Math zone w) = Normal tt /\
     outbox (snd (analyzeZipCode Math zone w)) =
       outbox w ++ [zipCodeAnalysisReady stats elapsed]) /\
  (~ has_rings (geometry zone) ->
   fst (analyzeZipCode Math zone w) = TypeError /\
   outbox (snd (analyzeZipCode Math zone w)) = outbox w) /\
  engine (snd (analyzeZipCode Math zone w)) = engine w.
Proof.
  rewrite analyzeZipCode_run. repeat split.
  - intros H. destruct (zone_statistics_total Math (engine w) zone H) as [stats ->].
    simpl. eauto.
  - rewrite (zone_statistics_throws Math (engine w) zone H). reflexivity.
  - rewrite (zone_statistics_throws Math (engine w) zone H). reflexivity.
  - destruct (zone_statistics Math (engine w) zone); reflexivity.
Qed.

(** The loop over the hydrants writes [hydrantCount] only, the loop over
    the stations [stationCount] only. *)
Lemma count_hydrants_frame (zone : Feature) (l : list Location) (stats stats' : Stats) :
  for_of_pure l (count_hydrant zone) stats = Normal stats' ->
  stats' = set_hydrantCount (hydrantCount stats') stats.
Proof.
  revert stats. induction l as [|h l IH]; intros stats; simpl.
  - intros [= <-]. destruct stats; reflexivity.
  - unfold count_hydrant at 1.
    destruct (pointInPolygon (lat h) (lon h) zone) as [[]|]; try discriminate;
      intros H; apply IH in H; rewrite H; destruct stats; reflexivity.
Qed.

Lemma count_stations_frame (zone : Feature) (l : list Location) (stats stats' : Stats) :
  for_of_pure l (count_station zone) stats = Normal stats' ->
  stats' = set_stationCount (stationCount stats') stats.
Proof.
  revert stats. induction l as [|h l IH]; intros stats; simpl.
  - intros [= <-]. destruct stats; reflexivity.
  - unfold count_station at 1.
    destruct (pointInPolygon (lat h) (lon h) zone) as [[]|]; try discriminate;
      intros H; apply IH in H; rewrite H; destruct stats; reflexivity.
Qed.

(** The loop over the table leaves its variables alone when no record
    lies in the zone. *)
Lemma count_addresses_none (zone : Feature) (l : list AddressRecord)
  (st : Stats * float * float) :
  (forall a, In a l ->
     pointInPolygon (lat (source a)) (lon (source a)) zone = Normal false) ->
  for_of_pure l (count_address zone) st = Normal st.
Proof.
  induction l as [|a l IH]; intros H; simpl; [reflexivity|].
  unfold count_address at 1. destruct st as [[stats th] ts].
  rewrite (H a) by (left; reflexivity).
  apply IH. intros a' Ha'. apply H. right. exact Ha'.
Qed.

(** The classification leaves the ratios and the averages alone. *)
Lemma classify_frame (area : float) (stats : Stats) :
  let stats' := classify area stats in
  coveragePercent500 stats' = coveragePercent500 stats /\
  coveragePercent1000 stats' = coveragePercent1000 stats /\
  stationCoveragePercent stats' = stationCoveragePercent stats /\
  hydrantDensity stats' = hydrantDensity stats /\
  avgDistanceToHydrant stats' = avgDistanceToHydrant stats /\
  avgDistanceToStation stats' = avgDistanceToStation stats /\
  addressCount stats' = addressCount stats /\
  minDistance stats' = minDistance stats /\
  maxDistance stats' = maxDistance stats.
Proof.
  unfold classify.
  repeat match goal with
  | |- context [if ?c then _ else _] => destruct c; simpl
  end; repeat split.
Qed.

(** X4.  For a zone that holds none of the precomputed address records, the
    posted statistics have the four ratios ['0'], both averages 0, the
    address count 0, the minimum distance [Infinity] and the maximum 0:
    nothing is divided by the zero count. *)
Theorem analyzeZipCode_no_address (Math : MathObject) (zone : Feature) (w : World) :
  has_rings (geometry zone) ->
  (forall a, In a (addressesWithDistances (engine w)) ->
     pointInPolygon (lat (source a)) (lon (source a)) zone = Normal false) ->
  exists stats elapsed,
    analyzeZipCode Math zone w =
      (Normal tt,
       {| engine := engine w;
          outbox := outbox w ++ [zipCodeAnalysisReady stats elapsed];
          clock := clock w;
          ticks := S (S (ticks w)) |}) /\
    coveragePercent500 stats = Some "0" /\
    coveragePercent1000 stats = Some "0" /\
    stationCoveragePercent stats = Some "0" /\
    hydrantDensity stats = Some "0" /\
    avgDistanceToHydrant stats = (#0)%js /\
    avgDistanceToStation stats = (#0)%js /\
    addressCount stats = (#0)%js /\
    minDistance stats = Infinity /\
    maxDistance stats = (#0)%js.
Proof.
  intros Hrings Hnone. rewrite analyzeZipCode_run. unfold zone_statistics.
  destruct (calculatePolygonArea Math zone) as [area|] eqn:Ea;
    [|apply calculatePolygonArea_throws in Ea; contradiction].
  destruct (count_hydrants_total zone (hydrantsList (engine w)) (initial_stats area) Hrings)
    as [s1 H1].
  rewrite H1. apply count_hydrants_frame in H1.
  destruct (count_stations_total zone (stationsList (engine w)) s1 Hrings) as [s2 H2].
  rewrite H2. apply count_stations_frame in H2.
  rewrite (count_addresses_none zone _ _ Hnone).
  eexists. eexists. split; [reflexivity|].
  destruct (classify_frame area (derive_ratios (#0)%js (#0)%js s2))
    as (-> & -> & -> & -> & -> & -> & -> & -> & ->).
  rewrite H2, H1. cbn. repeat split.
Qed.

(** One turn of the loop over the table: a record outside the zone changes
    nothing; a record inside moves the minimum down to its distance when
    that is smaller, and the maximum up when that is larger. *)
Lemma count_address_minmax (zone : Feature) (a : AddressRecord)
  (stats : Stats) (th ts : float) (st' : Stats * float * float) :
  count_address zone a (stats, th, ts) = Normal st' ->
  match pointInPolygon (lat (source a)) (lon (source a)) zone with
  | Normal true =>
      minDistance (fst (fst st')) =
        (if (nearestHydrantDist a < minDistance stats)%js
         then nearestHydrantDist a else minDistance stats) /\
      maxDistance (fst (fst st')) =
        (if (nearestHydrantDist a > maxDistance stats)%js
         then nearestHydrantDist a else maxDistance stats)
  | _ => st' = (stats, th, ts)
  end.
Proof.
  unfold count_address.
  destruct (pointInPolygon (lat (source a)) (lon (source a)) zone) as [[]|];
    [|congruence|discriminate].
  intros [= <-]. simpl.
  destruct (nearestHydrantDist a < minDistance stats)%js; simpl;
    destruct (nearestHydrantDist a > maxDistance stats)%js; simpl;
    destruct (within500ft a), (within1000ft a), (underserved a), (withinStationMile a);
    simpl; split; reflexivity.
Qed.

Lemma count_addresses_minmax (zone : Feature) (l seen : list AddressRecord)
  (st st' : Stats * float * float) :
  (forall a, In a seen ->
     pointInPolygon (lat (source a)) (lon (source a)) zone = Normal true ->
     (nearestHydrantDist a < minDistance (fst (fst st)))%js = false /\
     (nearestHydrantDist a > maxDistance (fst (fst st)))%js = false) ->
  for_of_pure l (count_address zone) st = Normal st' ->
  forall a, In a (seen ++ l) ->
    pointInPolygon (lat (source a)) (lon (source a)) zone = Normal true ->
    (nearestHydrantDist a < minDistance (fst (fst st')))%js = false /\
    (nearestHydrantDist a > maxDistance (fst (fst st')))%js = false.
Proof.
  revert seen st. induction l as [|b l IH]; intros seen st Hseen Hrun.
  - simpl in Hrun. injection Hrun as <-. rewrite app_nil_r. exact Hseen.
  - simpl in Hrun.
    destruct (count_address zone b st) as [st1|] eqn:Hb; [|discriminate].
    replace (seen ++ b :: l) with ((seen ++ [b]) ++ l)
      by (rewrite <- app_assoc; reflexivity).
    apply (IH (seen ++ [b]) st1); [|exact Hrun].
    destruct st as [[stats th] ts].
    apply count_address_minmax in Hb. simpl in Hseen.
    unfold gtb, ltb in *.
    intros a [Ha|[<-|[]]]%in_app_or Hin.
    + destruct (Hseen a Ha Hin) as [Hmin Hmax].
      destruct (pointInPolygon (lat (source b)) (lon (source b)) zone) as [[]|];
        try (subst st1; simpl; auto; fail).
      destruct Hb as [-> ->]. split.
      * destruct (SFltb (nearestHydrantDist b) (minDistance stats)) eqn:E; [|exact Hmin].
        destruct (SFltb (nearestHydrantDist a) (nearestHydrantDist b)) eqn:E';
          [|reflexivity].
        pose proof (ltb_trans _ _ _ E' E) as T. unfold ltb in T. congruence.
      * destruct (SFltb (maxDistance stats) (nearestHydrantDist b)) eqn:E; [|exact Hmax].
        destruct (SFltb (nearestHydrantDist b) (nearestHydrantDist a)) eqn:E';
          [|reflexivity].
        pose proof (ltb_trans _ _ _ E E') as T. unfold ltb in T. congruence.
    + rewrite Hin in Hb. destruct Hb as [-> ->]. split.
      * destruct (SFltb (nearestHydrantDist b) (minDistance stats)) eqn:E; [|exact E].
        apply ltb_irrefl.
      * destruct (SFltb (maxDistance stats) (nearestHydrantDist b)) eqn:E; [|exact E].
        apply ltb_irrefl.
Qed.

(** X5.  In the statistics posted for a zone, no precomputed record lying in the
    zone has a hydrant distance below [minDistance] or above [maxDistance]. *)
Theorem analyzeZipCode_min_max (Math : MathObject) (zone : Feature) (w : World) :
  has_rings (geometry zone) ->
  exists stats elapsed,
    analyzeZipCode Math zone w =
      (Normal tt,
       {| engine := engine w;
          outbox := outbox w ++ [zipCodeAnalysisReady stats elapsed];
          clock := clock w;
          ticks := S (S (ticks w)) |}) /\
    forall a, In a (addressesWithDistances (engine w)) ->
      pointInPolygon (lat (source a)) (lon (source a)) zone = Normal true ->
      (nearestHydrantDist a < minDistance stats)%js = false /\
      (nearestHydrantDist a > maxDistance stats)%js = false.
Proof.
  intros Hrings. rewrite analyzeZipCode_run. unfold zone_statistics.
  destruct (calculatePolygonArea Math zone) as [area|] eqn:Ea;
    [|apply calculatePolygonArea_throws in Ea; contradiction].
  destruct (count_hydrants_total zone (hydrantsList (engine w)) (initial_stats area) Hrings)
    as [s1 H1].
  rewrite H1.
  destruct (count_stations_total zone (stationsList (engine w)) s1 Hrings) as [s2 H2].
  rewrite H2.
  destruct (count_addresses_total zone (addressesWithDistances (engine w))
              (s2, (#0)%js, (#0)%js) Hrings) as [[[s3 th] ts] H3].
  rewrite H3. eexists. eexists. split; [reflexivity|].
  intros a Ha Hin.
  destruct (classify_frame area (derive_ratios th ts s3))
    as (_ & _ & _ & _ & _ & _ & _ & -> & ->).
  assert (Hd : minDistance (derive_ratios th ts s3) = minDistance s3 /\
               maxDistance (derive_ratios th ts s3) = maxDistance s3).
  { unfold derive_ratios. destruct (addressCount s3 > #0)%js; split; reflexivity. }
  destruct Hd as [-> ->].
  apply (count_addresses_minmax zone _ [] _ _ (fun a H => match H with end) H3 a Ha Hin).
Qed.

(** ** The engine over a run of the worker *)

Lemma clear_insert_all (cs : float) (pts : list Point) :
  clear (insert_all (new_SpatialGrid cs) pts) = new_SpatialGrid cs.
Proof. unfold clear. rewrite insert_all_cellSize. reflexivity. Qed.

Lemma onmessage_consistent (Math : MathObject) (r : Request) (w : World) :
  engine_consistent (engine w) ->
  engine_consistent (engine (snd (onmessage Math r w))).
Proof.
  intros [Hh Hs]. destruct r as [hydrants|stations|addresses|zone]; unfold onmessage.
  - rewrite buildHydrantIndex_run. simpl. split; [|exact Hs].
    rewrite Hh, clear_insert_all. reflexivity.
  - rewrite setStations_run. simpl. split; [exact Hh|].
    rewrite Hs, clear_insert_all. reflexivity.
  - rewrite precomputeAddressDistances_run. simpl. split; assumption.
  - rewrite analyzeZipCode_run.
    destruct (zone_statistics Math (engine w) zone); simpl; split; assumption.
Qed.

Lemma process_snoc (Math : MathObject) (requests : list Request) (r : Request)
  (w : World) :
  process Math (requests ++ [r]) w = snd (onmessage Math r (process Math requests w)).
Proof. unfold process. rewrite fold_left_app. reflexivity. Qed.

Lemma process_consistent (Math : MathObject) (requests : list Request)
  (clock : nat -> float) :
  engine_consistent (engine (process Math requests (initial_world clock))).
Proof.
  induction requests as [|r requests IH] using rev_ind.
  - split; reflexivity.
  - rewrite process_snoc. apply onmessage_consistent. exact IH.
Qed.

(** X6.  Whatever messages the worker has handled since it was created,
    its hydrant grid holds exactly the hydrants of [hydrantsList], its
    station grid exactly the stations of [stationsList], each station's
    point carrying the station, in insertion order and in grids of cell
    sizes 0.005 and 0.01. *)
Theorem worker_grids_follow_lists (Math : MathObject) (requests : list Request)
  (clock : nat -> float) :
  let e := engine (process Math requests (initial_world clock)) in
  hydrantGrid e =
    insert_all (new_SpatialGrid (dec 5 3)) (map hydrant_point (hydrantsList e)) /\
  stationGrid e =
    insert_all (new_SpatialGrid (dec 1 2)) (map station_point (stationsList e)).
Proof. exact (process_consistent Math requests clock). Qed.

(** ** What a query can return *)

(** Whatever the list of radii, the search returns the initial record or a
    candidate collected at one of the radii, with its distance, a number
    below infinity that no candidate of that radius beats. *)
Lemma findNearest_from_spec (Math : MathObject) (g : SpatialGrid) (lat lon : float)
  (radii : list Z) :
  findNearest_from Math g lat lon radii = {| point := None; distance := Infinity |} \/
  exists r p,
    In r radii /\ In p (getNearbyPoints g lat lon r) /\
    findNearest_from Math g lat lon radii =
      {| point := Some p;
         distance := haversineDistance Math lat lon (plat p) (plon p) |} /\
    (haversineDistance Math lat lon (plat p) (plon p) < Infinity)%js = true /\
    forall c, In c (getNearbyPoints g lat lon r) ->
      (haversineDistance Math lat lon (plat c) (plon c) <
       haversineDistance Math lat lon (plat p) (plon p))%js = false.
Proof.
  induction radii as [|r radii IH]; simpl; [left; reflexivity|].
  destruct (getNearbyPoints g lat lon r) as [|c l] eqn:E; simpl.
  - destruct IH as [IH|(r' & p & Hr' & Hp & Hres & Hfin & Hmin)]; [left; exact IH|].
    right. exists r', p. auto.
  - destruct (nearest_of_spec Math lat lon (c :: l)) as [[Hn|(p & Hp & Hres & Hfin)] Hmin];
      [left; exact Hn|].
    right. exists r, p. rewrite E. split; [left; reflexivity|].
    split; [exact Hp|]. split; [exact Hres|]. split; [exact Hfin|].
    intros c' Hc'. specialize (Hmin c' Hc'). rewrite Hres in Hmin. exact Hmin.
Qed.

Lemma findNearest_inserted (Math : MathObject) (g0 : SpatialGrid)
  (pts : list Point) (lat lon : float) :
  let res := findNearest Math (insert_all (clear g0) pts) lat lon in
  res = {| point := None; distance := Infinity |} \/
  exists p,
    In p pts /\
    res = {| point := Some p;
             distance := haversineDistance Math lat lon (plat p) (plon p) |} /\
    (haversineDistance Math lat lon (plat p) (plon p) < Infinity)%js = true.
Proof.
  intros res. subst res. unfold findNearest.
  destruct (findNearest_from_spec Math (insert_all (clear g0) pts) lat lon (seqZ 1 20))
    as [H|(r & p & _ & Hp & Hres & Hfin & _)]; [left; exact H|].
  right. exists p. split; [|auto].
  apply (getNearbyPoints_inserted (cellSize g0) pts lat lon r). exact Hp.
Qed.

(** X7.  On an index cleared and then filled by [insert], a query returns
    either [{ point: null, distance: Infinity }] or one of the inserted
    points together with its haversine distance to the query, a number
    below infinity: never a point that was not inserted, never a NaN
    distance. *)
Theorem findNearest_returns_inserted (Math : MathObject) (g0 : SpatialGrid)
  (pts : list Point) (lat lon : float) :
  let res := findNearest Math (insert_all (clear g0) pts) lat lon in
  res = {| point := None; distance := Infinity |} \/
  exists p,
    In p pts /\
    res = {| point := Some p;
             distance := haversineDistance Math lat lon (plat p) (plon p) |} /\
    (haversineDistance Math lat lon (plat p) (plon p) < Infinity)%js = true.
Proof. exact (findNearest_inserted Math g0 pts lat lon). Qed.

(** ** What the precomputation pass records *)

Lemma in_station_points (p : Point) (stations : list Location) :
  In p (map station_point stations) ->
  exists s, In s stations /\ data p = Some s /\ plat p = lat s /\ plon p = lon s.
Proof. intros (s & <- & Hs)%in_map_iff. exists s. auto. Qed.

Lemma in_hydrant_points (p : Point) (hydrants : list Location) :
  In p (map hydrant_point hydrants) ->
  exists h, In h hydrants /\ plat p = lat h /\ plon p = lon h.
Proof. intros (h & <- & Hh)%in_map_iff. exists h. auto. Qed.

(** X8.  In every state the worker can reach, the records that a precomputation
    pass writes are sound: the hydrant distance of a record is [Infinity] or
    the haversine distance from the address to one of the hydrants of
    [hydrantsList]; its station data, when present, is one of the stations
    of [stationsList] and its station distance the distance to that station;
    when absent, the station distance is [Infinity]. *)
Theorem precompute_records_sound (Math : MathObject) (requests : list Request)
  (clock : nat -> float) (addresses : list Location) :
  let w := process Math requests (initial_world clock) in
  let w' := snd (precomputeAddressDistances Math addresses w) in
  forall a, In a (addressesWithDistances (engine w')) ->
    (nearestHydrantDist a = Infinity \/
     exists h, In h (hydrantsList (engine w)) /\
       nearestHydrantDist a =
         haversineDistance Math (lat (source a)) (lon (source a)) (lat h) (lon h) /\
       (nearestHydrantDist a < Infinity)%js = true) /\
    match nearestStationData a with
    | Some s =>
        In s (stationsList (engine w)) /\
        nearestStationDist a =
          haversineDistance Math (lat (source a)) (lon (source a)) (lat s) (lon s) /\
        (nearestStationDist a < Infinity)%js = true
    | None => nearestStationDist a = Infinity
    end.
Proof.
  intros w w' a Ha. subst w'. rewrite precompute_table in Ha.
  apply in_map_iff in Ha as (addr & <- & _).
  destruct (process_consistent Math requests clock) as [Hh Hs].
  fold w in Hh, Hs. unfold address_record. simpl. rewrite Hh, Hs. split.
  - destruct (findNearest_inserted Math (new_SpatialGrid (dec 5 3))
                (map hydrant_point (hydrantsList (engine w))) (lat addr) (lon addr))
      as [H|(p & Hp & H & Hfin)];
      change (clear (new_SpatialGrid (dec 5 3))) with (new_SpatialGrid (dec 5 3)) in H;
      rewrite H; simpl; [left; reflexivity|].
    right. apply in_hydrant_points in Hp as (h & Hh' & Hlat & Hlon).
    exists h. rewrite <- Hlat, <- Hlon. auto.
  - destruct (0 <? length (stationsList (engine w)))%nat; simpl; [|reflexivity].
    destruct (findNearest_inserted Math (new_SpatialGrid (dec 1 2))
                (map station_point (stationsList (engine w))) (lat addr) (lon addr))
      as [H|(p & Hp & H & Hfin)];
      change (clear (new_SpatialGrid (dec 1 2))) with (new_SpatialGrid (dec 1 2)) in H;
      rewrite H; simpl; [reflexivity|].
    apply in_station_points in Hp as (s & Hs' & Hd & Hlat & Hlon).
    rewrite Hd. rewrite <- Hlat, <- Hlon. auto.
Qed.

Lemma filter_none {A} (P : A -> Prop) `{forall x, Decision (P x)} (l : list A) :
  (forall x, In x l -> ~ P x) -> filter P l = [].
Proof.
  induction l as [|x l IH]; intros Hl; [reflexivity|].
  rewrite filter_cons_False by (apply Hl; left; reflexivity).
  apply IH. intros y Hy. apply Hl. right. exact Hy.
Qed.

(** X9.  Without stations ([stationsList] empty), every record of a pass has
    station distance [Infinity], no station data and [withinStationMile]
    false, and the summary reports a count of 0, an average station
    distance of 0 and the percentage ['0']. *)
Theorem precompute_without_stations (Math : MathObject) (addresses : list Location)
  (w : World) :
  stationsList (engine w) = [] ->
  let w' := snd (precomputeAddressDistances Math addresses w) in
  (forall a, In a (addressesWithDistances (engine w')) ->
     nearestStationDist a = Infinity /\
     nearestStationData a = None /\
     withinStationMile a = false) /\
  exists msgs count elapsed summary,
    outbox w' = msgs ++ [addressDistancesReady count elapsed summary] /\
    sum_withinStationMile summary = (#0)%js /\
    avgStationDistance summary = (#0)%js /\
    pctWithinStationMile summary = "0".
Proof.
  intros Hnone w'.
  assert (Hrec : forall a, In a (map (address_record Math (engine w)) addresses) ->
            nearestStationDist a = Infinity /\ nearestStationData a = None /\
            withinStationMile a = false).
  { intros a (addr & <- & _)%in_map_iff. unfold address_record. rewrite Hnone.
    simpl. auto. }
  subst w'. rewrite precomputeAddressDistances_run. simpl. split; [exact Hrec|].
  eexists. eexists. eexists. eexists. split.
  - rewrite app_assoc. reflexivity.
  - unfold summary_of. simpl. rewrite Hnone. simpl. repeat split.
    rewrite filter_none; [reflexivity|].
    intros a Ha. apply Hrec in Ha as (_ & _ & ->). discriminate.
Qed.

(** X10.  A pass over an empty address list leaves an empty table and posts a
    summary whose average hydrant distance is NaN and whose two hydrant
    percentages are the text ['NaN'] (0 divided by 0); the station average
    and percentage are NaN and ['NaN'] as well when there are stations, 0
    and ['0'] when there are none. *)
Theorem precompute_empty_list (Math : MathObject) (w : World) :
  let w' := snd (precomputeAddressDistances Math [] w) in
  addressesWithDistances (engine w') = [] /\
  exists elapsed summary,
    outbox w' = outbox w ++ [addressDistancesReady (#0)%js elapsed summary] /\
    avgDistance summary = NaN /\
    pctWithin500 summary = "NaN" /\
    pctWithin1000 summary = "NaN" /\
    avgStationDistance summary =
      (if (0 <? length (stationsList (engine w)))%nat then NaN else (#0)%js) /\
    pctWithinStationMile summary =
      (if (0 <? length (stationsList (engine w)))%nat then "NaN" else "0").
Proof.
  intros w'. subst w'. rewrite precomputeAddressDistances_run. simpl.
  split; [reflexivity|].
  eexists. eexists. split; [reflexivity|].
  unfold summary_of. simpl.
  destruct (0 <? length (stationsList (engine w)))%nat; repeat split.
Qed.

(** ** Point in polygon *)

Lemma crosses_same (lat lon : float) (v : float * float) : crosses lat lon v v = false.
Proof. destruct v as [x y]. unfold crosses. rewrite xorb_nilpotent. reflexivity. Qed.

(** The loop of [ring_inside] from index [length pre] on, entered with the
    flag [b] and with [j] the index of the vertex [vj]. *)
Lemma ring_fold (lat lon : float) (suf pre : Ring) (b : bool) (j : nat)
  (vj : float * float) :
  (pre ++ suf) !! j = Some vj ->
  fst (fold_left (ring_step lat lon (pre ++ suf)) (seq (length pre) (length suf)) (b, j)) =
  xorb b (edge_parity lat lon vj suf).
Proof.
  revert pre b j vj. induction suf as [|v suf IH]; intros pre b j vj Hj.
  - simpl. rewrite xorb_false_r. reflexivity.
  - assert (Hi : (pre ++ v :: suf) !! length pre = Some v).
    { rewrite lookup_app_r by lia. rewrite Nat.sub_diag. reflexivity. }
    assert (Hstep : ring_step lat lon (pre ++ v :: suf) (b, j) (length pre) =
                    (if crosses lat lon v vj then negb b else b, length pre)).
    { unfold ring_step, Ring. rewrite Hi, Hj. reflexivity. }
    cbn [length seq fold_left edge_parity]. rewrite Hstep.
    replace (pre ++ v :: suf) with ((pre ++ [v]) ++ suf) in *
      by (rewrite <- app_assoc; reflexivity).
    replace (S (length pre)) with (length (pre ++ [v]))
      by (rewrite length_app; simpl; lia).
    rewrite (IH (pre ++ [v]) _ (length pre) v Hi).
    destruct (crosses lat lon v vj), b, (edge_parity lat lon v suf); reflexivity.
Qed.

(** The ray-casting flag of a ring is the parity of the crossings of its
    edges, the first of which leads from the last vertex to the first. *)
Lemma ring_inside_parity (lat lon : float) (coords : Ring) :
  ring_inside lat lon coords =
  match last coords with
  | Some vl => edge_parity lat lon vl coords
  | None => false
  end.
Proof.
  unfold ring_inside.
  destruct (last coords) as [vl|] eqn:El.
  - rewrite (ring_fold lat lon coords [] false _ vl); [reflexivity|].
    simpl. rewrite last_lookup in El. rewrite <- El. f_equal. lia.
  - apply last_None in El. subst coords. reflexivity.
Qed.

Lemma edge_parity_snoc (lat lon : float) (vs : Ring) (prev x : float * float) :
  edge_parity lat lon prev (vs ++ [x]) =
  xorb (edge_parity lat lon prev vs)
       (crosses lat lon x (default prev (last vs))).
Proof.
  revert prev. induction vs as [|v vs IH]; intros prev; simpl.
  - rewrite xorb_false_r. reflexivity.
  - rewrite IH. rewrite xorb_assoc. f_equal. f_equal. f_equal.
    destruct vs as [|v' vs]; [reflexivity|].
    change (last (v :: v' :: vs)) with (last (v' :: vs)).
    destruct (last (v' :: vs)) eqn:E; [reflexivity|].
    apply last_None in E. discriminate.
Qed.

Lemma ring_inside_close (lat lon : float) (coords : Ring) :
  ring_inside lat lon (close_ring coords) = ring_inside lat lon coords.
Proof.
  destruct coords as [|v0 tl]; [reflexivity|].
  rewrite !ring_inside_parity. unfold close_ring.
  rewrite last_snoc.
  change ((v0 :: tl) ++ [v0]) with (v0 :: (tl ++ [v0])).
  simpl edge_parity at 1. rewrite crosses_same, edge_parity_snoc. simpl.
  destruct (last (v0 :: tl)) as [vl|] eqn:El; [|apply last_None in El; discriminate].
  simpl. destruct tl as [|v1 tl].
  - simpl in *. injection El as <-. rewrite crosses_same. reflexivity.
  - change (last (v0 :: v1 :: tl)) with (last (v1 :: tl)) in El. rewrite El. simpl.
    apply xorb_comm.
Qed.

Lemma any_ring_inside_close (lat lon : float) (polys : list (list Ring)) :
  any_ring_inside lat lon (map head (map close_outer polys)) =
  any_ring_inside lat lon (map head polys).
Proof.
  induction polys as [|[|r holes] polys IH]; simpl; [reflexivity|reflexivity|].
  rewrite ring_inside_close, IH. reflexivity.
Qed.

(** X11.  Appending to the outer ring of every polygon of a zone a copy of the
    ring's first vertex changes the answer of [pointInPolygon] for no query
    point: closed and unclosed rings are classified alike. *)
Theorem pointInPolygon_ring_closure (lat lon : float) (zone : Feature) :
  pointInPolygon lat lon {| geometry := close_geometry (geometry zone) |} =
  pointInPolygon lat lon zone.
Proof.
  unfold pointInPolygon. simpl.
  destruct (geometry zone) as [coordinates|coordinates|t]; simpl.
  - destruct coordinates as [|r holes]; simpl; [reflexivity|].
    rewrite ring_inside_close. reflexivity.
  - apply any_ring_inside_close.
  - reflexivity.
Qed.

(** X12.  A point is in a Polygon when the ray-casting test of the first ring
    says so, whatever further rings (holes) follow; it is in a MultiPolygon
    each of whose polygons has its outer ring exactly when it is in the
    outer ring of one of them; it is in no geometry of another kind. *)
Theorem pointInPolygon_any_part (lat lon : float) :
  (forall r holes,
     pointInPolygon lat lon {| geometry := Polygon (r :: holes) |} =
     Normal (ring_inside lat lon r)) /\
  (forall polys,
     Forall (fun poly => poly <> []) polys ->
     pointInPolygon lat lon {| geometry := MultiPolygon polys |} =
     Normal (existsb (fun poly => match head poly with
                                  | Some r => ring_inside lat lon r
                                  | None => false
                                  end) polys)) /\
  (forall t, pointInPolygon lat lon {| geometry := OtherGeometry t |} = Normal false).
Proof.
  repeat split.
  - intros r holes. unfold pointInPolygon. simpl.
    destruct (ring_inside lat lon r); reflexivity.
  - intros polys H. unfold pointInPolygon. simpl.
    rewrite any_ring_inside_total by (apply Forall_head_rings; exact H).
    f_equal. induction polys as [|p polys IH]; [reflexivity|].
    simpl. inversion H; subst. rewrite IH by assumption. reflexivity.
Qed.

(** ** Degenerate rings and areas *)

Lemma ring_inside_short (lat lon : float) (coords : Ring) :
  (length coords < 2)%nat -> ring_inside lat lon coords = false.
Proof.
  destruct coords as [|v [|v' coords]]; simpl; intros H; try lia.
  - reflexivity.
  - rewrite ring_inside_parity. simpl. rewrite crosses_same. reflexivity.
Qed.

Lemma calculateRingArea_short (Math : MathObject) (coords : Ring) :
  (length coords < 2)%nat -> calculateRingArea Math (Some coords) = Normal (#0)%js.
Proof.
  destruct coords as [|v [|v' coords]]; simpl; intros H; try lia; reflexivity.
Qed.

(** X13.  For a geometry of a kind other than Polygon and MultiPolygon, and for
    one whose outer rings all have fewer than two vertices,
    [pointInPolygon] answers [false] for every query point and
    [calculatePolygonArea] returns 0; neither throws. *)
Theorem degenerate_zone (Math : MathObject) (zone : Feature) :
  rings_below 2 (geometry zone) ->
  (forall lat lon, pointInPolygon lat lon zone = Normal false) /\
  calculatePolygonArea Math zone = Normal (#0)%js.
Proof.
  unfold pointInPolygon, calculatePolygonArea, rings_below.
  destruct (geometry zone) as [coordinates|coordinates|t].
  - intros (r & Hr & Hlen).
    destruct coordinates as [|r0 holes]; [discriminate|]. injection Hr as ->.
    cbn [hd_error]. rewrite (calculateRingArea_short Math r Hlen).
    split; [|reflexivity].
    intros lat lon. cbn [any_ring_inside].
    rewrite (ring_inside_short lat lon r Hlen). reflexivity.
  - intros H. split.
    + intros lat lon. induction H as [|poly polys (r & Hr & Hlen) _ IH];
        [reflexivity|].
      destruct poly as [|r0 holes]; [discriminate|]. injection Hr as ->.
      cbn [map hd_error any_ring_inside].
      rewrite (ring_inside_short lat lon r Hlen). exact IH.
    + induction H as [|poly polys (r & Hr & Hlen) _ IH]; [reflexivity|].
      destruct poly as [|r0 holes]; [discriminate|]. injection Hr as ->.
      cbn [for_of_pure hd_error].
      rewrite (calculateRingArea_short Math r Hlen). exact IH.
  - intros _. split; reflexivity.
Qed.

(** The result of a rounding carries the sign it was given. *)
Lemma binary_round_aux_sign (s : bool) (m e : Z) (l : location) :
  match binary_round_aux prec emax s m e l with
  | S754_zero s' | S754_infinity s' | S754_finite s' _ _ => s' = s
  | S754_nan => True
  end.
Proof.
  unfold binary_round_aux.
  destruct (shr_fexp prec emax m e l) as [mrs' e'].
  destruct (shr_fexp prec emax _ e' loc_Exact) as [mrs'' e''].
  destruct (shr_m mrs''); [reflexivity| |exact I].
  destruct (e'' <=? emax - prec); reflexivity.
Qed.

Lemma binary_normalize_pos_sign (m : positive) (e : Z) :
  (binary_normalize prec emax (Zpos m) e false < #0)%js = false.
Proof.
  unfold binary_normalize, binary_round.
  destruct (shl_align m e _) as [mz ez].
  pose proof (binary_round_aux_sign false (Zpos mz) ez loc_Exact) as H.
  destruct (binary_round_aux prec emax false (Zpos mz) ez loc_Exact);
    try subst; reflexivity.
Qed.

Lemma shl_align_fst_pos (m : positive) (e e' : Z) :
  exists p, Zpos (fst (shl_align m e e')) = Zpos p.
Proof. eauto. Qed.

(** The sum of two numbers neither of which is below zero is not below
    zero (it may be NaN). *)
Lemma add_not_negative (x y : float) :
  (x < #0)%js = false -> (y < #0)%js = false -> (x + y < #0)%js = false.
Proof.
  destruct x as [sx|sx| |sx mx ex], y as [sy|sy| |sy my ey];
    try (destruct sx); try (destruct sy); simpl; intros Hx Hy;
    try discriminate; try reflexivity.
  unfold add, SFadd. simpl cond_Zopp.
  apply binary_normalize_pos_sign.
Qed.

Lemma abs_not_negative (x : float) : (abs x < #0)%js = false.
Proof. destruct x; reflexivity. Qed.

Lemma multi_area_not_negative (Math : MathObject) (coordinates : list (list Ring))
  (acc a : float) :
  (acc < #0)%js = false ->
  for_of_pure coordinates
    (fun poly totalArea =>
       match calculateRingArea Math (head poly) with
       | Normal area => Normal (totalArea + area)%js
       | TypeError => TypeError
       end) acc = Normal a ->
  (a < #0)%js = false.
Proof.
  revert acc. induction coordinates as [|poly polys IH]; intros acc Hacc; simpl.
  - intros [= <-]. exact Hacc.
  - destruct (head poly) as [r|]; simpl; [|discriminate].
    apply IH. apply add_not_negative; [exact Hacc|apply abs_not_negative].
Qed.

(** X14.  The area [calculatePolygonArea] returns is never below zero: for a
    Polygon it is an absolute value, for a MultiPolygon a sum of absolute
    values (it is NaN when a coordinate is). *)
Theorem calculatePolygonArea_not_negative (Math : MathObject) (zone : Feature) (a : float) :
  calculatePolygonArea Math zone = Normal a -> (a < #0)%js = false.
Proof.
  unfold calculatePolygonArea.
  destruct (geometry zone) as [coordinates|coordinates|t].
  - destruct (head coordinates) as [r|]; simpl; [|discriminate].
    intros [= <-]. apply abs_not_negative.
  - apply multi_area_not_negative. reflexivity.
  - intros [= <-]. reflexivity.
Qed.

(** ** Distance *)

Lemma binary_round_aux_opp (s : bool) (m e : Z) (l : location) :
  binary_round_aux prec emax (negb s) m e l = opp (binary_round_aux prec emax s m e l).
Proof.
  unfold binary_round_aux.
  destruct (shr_fexp prec emax m e l) as [mrs' e'].
  destruct (shr_fexp prec emax _ e' loc_Exact) as [mrs'' e''].
  destruct (shr_m mrs''); [reflexivity| |reflexivity].
  destruct (e'' <=? emax - prec); reflexivity.
Qed.

Lemma xorb_negb_l (a b : bool) : xorb (negb a) b = negb (xorb a b).
Proof. destruct a, b; reflexivity. Qed.

Lemma mul_opp_l (x y : float) : (opp x * y)%js = opp (x * y)%js.
Proof.
  destruct x as [sx|sx| |sx mx ex], y as [sy|sy| |sy my ey]; simpl;
    rewrite ?xorb_negb_l; try reflexivity.
  apply binary_round_aux_opp.
Qed.

Lemma div_opp_l (x y : float) : (opp x / y)%js = opp (x / y)%js.
Proof.
  destruct x as [sx|sx| |sx mx ex], y as [sy|sy| |sy my ey]; simpl;
    rewrite ?xorb_negb_l; try reflexivity.
  destruct (SFdiv_core_binary prec emax (Z.pos mx) ex (Z.pos my) ey) as [[mz ez] lz].
  apply binary_round_aux_opp.
Qed.

Lemma mul_comm (x y : float) : (x * y)%js = (y * x)%js.
Proof.
  destruct x as [sx|sx| |sx mx ex], y as [sy|sy| |sy my ey]; simpl;
    rewrite ?(xorb_comm sx sy); try reflexivity.
  rewrite (Pos.mul_comm mx my), (Z.add_comm ex ey). reflexivity.
Qed.

Lemma mul_opp_opp (x y : float) : (opp x * opp y)%js = (x * y)%js.
Proof.
  rewrite mul_opp_l, (mul_comm x (opp y)), mul_opp_l, (mul_comm y x).
  destruct (x * y)%js; simpl; rewrite ?negb_involutive; reflexivity.
Qed.

Lemma binary_normalize_opp (z e : Z) :
  z <> 0 ->
  binary_normalize prec emax (- z) e false = opp (binary_normalize prec emax z e false).
Proof.
  destruct z as [|m|m]; intros Hz; [congruence| |]; simpl;
    unfold binary_round; destruct (shl_align m e _) as [mz ez].
  - apply (binary_round_aux_opp false).
  - apply (binary_round_aux_opp true).
Qed.

(** Swapping the operands of a subtraction negates the difference, except
    that a difference of zero between equal operands is +0 either way. *)
Lemma sub_swap (x y : float) :
  (y - x)%js = opp (x - y)%js \/ ((x - y)%js = zero /\ (y - x)%js = zero).
Proof.
  destruct x as [sx|sx| |sx mx ex], y as [sy|sy| |sy my ey]; simpl;
    try (destruct sx, sy; simpl; auto; fail); try (rewrite ?negb_involutive; auto; fail).
  unfold sub, SFsub. rewrite (Z.min_comm ey ex).
  set (a := cond_Zopp sx (Z.pos (fst (shl_align mx ex (Z.min ex ey))))).
  set (b := cond_Zopp sy (Z.pos (fst (shl_align my ey (Z.min ex ey))))).
  destruct (Z.eq_dec (a - b) 0) as [E|E].
  - right. replace (b - a) with 0 by lia. rewrite E. split; reflexivity.
  - left. replace (b - a) with (- (a - b)) by lia.
    apply binary_normalize_opp. exact E.
Qed.

(** The half-angle [(y - x) * PI / 180 / 2] under a swap of [x] and [y]. *)
Lemma half_angle_swap (x y : float) :
  let u := ((y - x) * PI / #180 / #2)%js in
  let u' := ((x - y) * PI / #180 / #2)%js in
  u' = opp u \/ u' = u.
Proof.
  intros u u'. subst u u'.
  destruct (sub_swap y x) as [H|[H1 H2]].
  - left. rewrite H, mul_opp_l, !div_opp_l. reflexivity.
  - right. rewrite H1, H2. reflexivity.
Qed.

Lemma sin_square_swap (Math : MathObject) (u u' : float) :
  Math_sin Math (opp u) = opp (Math_sin Math u) ->
  u' = opp u \/ u' = u ->
  forall p : float,
    (p * Math_sin Math u' * Math_sin Math u')%js = (p * Math_sin Math u * Math_sin Math u)%js.
Proof.
  intros Hodd [->| ->] p; [|reflexivity].
  rewrite Hodd.
  rewrite (mul_comm p (opp _)), mul_opp_l, mul_opp_opp, (mul_comm _ p). reflexivity.
Qed.

Lemma sin_sin_swap (Math : MathObject) (u u' : float) :
  Math_sin Math (opp u) = opp (Math_sin Math u) ->
  u' = opp u \/ u' = u ->
  (Math_sin Math u' * Math_sin Math u')%js = (Math_sin Math u * Math_sin Math u)%js.
Proof.
  intros Hodd [->| ->]; [|reflexivity].
  rewrite Hodd. apply mul_opp_opp.
Qed.

(** X15.  The distance is symmetric, [haversineDistance(A, B) =
    haversineDistance(B, A)] to the last bit, for every Math object whose
    sine is odd at the two half-differences of the coordinates. *)
Theorem haversineDistance_symmetric (Math : MathObject) (lat1 lon1 lat2 lon2 : float) :
  let uLat := ((lat2 - lat1) * PI / #180 / #2)%js in
  let uLon := ((lon2 - lon1) * PI / #180 / #2)%js in
  Math_sin Math (opp uLat) = opp (Math_sin Math uLat) ->
  Math_sin Math (opp uLon) = opp (Math_sin Math uLon) ->
  haversineDistance Math lat2 lon2 lat1 lon1 = haversineDistance Math lat1 lon1 lat2 lon2.
Proof.
  intros uLat uLon HLat HLon. unfold haversineDistance.
  rewrite (sin_sin_swap Math uLat _ HLat (half_angle_swap lat1 lat2)).
  rewrite (sin_square_swap Math uLon _ HLon (half_angle_swap lon1 lon2)).
  rewrite (mul_comm (Math_cos Math (lat2 * PI / #180)%js)
                    (Math_cos Math (lat1 * PI / #180)%js)).
  reflexivity.
Qed.

Lemma sub_diag (x : float) : is_finite x = true -> (x - x)%js = zero.
Proof.
  destruct x as [[]| | |s m e]; simpl; try discriminate; try reflexivity.
  intros _. unfold sub, SFsub. rewrite Z.sub_diag. reflexivity.
Qed.

Lemma mul_zero_r (x : float) :
  is_finite x = true -> exists s, (x * zero)%js = S754_zero s.
Proof. destruct x; simpl; try discriminate; eauto. Qed.

(** X16.  The distance from a point to itself is exactly +0, for finite
    coordinates and every Math object with [sin(+0) = +0],
    [atan2(+0, 1) = +0] and a latitude cosine whose square is finite. *)
Theorem haversineDistance_self (Math : MathObject) (lat lon : float) :
  is_finite lat = true ->
  is_finite lon = true ->
  Math_sin Math zero = zero ->
  Math_atan2 Math zero (#1)%js = zero ->
  is_finite (Math_cos Math (lat * PI / #180) * Math_cos Math (lat * PI / #180))%js = true ->
  haversineDistance Math lat lon lat lon = zero.
Proof.
  intros Hlat Hlon Hsin Hatan Hcos. unfold haversineDistance.
  rewrite (sub_diag lat Hlat), (sub_diag lon Hlon).
  change (zero * PI / #180 / #2)%js with zero.
  change (zero * PI / #180)%js with zero.
  rewrite Hsin.
  destruct (mul_zero_r _ Hcos) as [s Hs]. rewrite Hs.
  change (zero * zero)%js with zero.
  replace (zero + S754_zero s * zero)%js with zero by (destruct s; reflexivity).
  change (sqrt zero) with zero.
  change (sqrt (#1 - zero)%js) with (#1)%js.
  rewrite Hatan. reflexivity.
Qed.

(** ** The grid: buckets, blocks and round trips *)

(** X17.  After [clear] and the insertion of the points [pts], the flat list holds
    the points in insertion order and the Map holds, for each cell with at
    least one point, the points of that cell in insertion order, and no
    entry for any other cell: every point lies in exactly one bucket, that
    of its own cell.  The cell size is kept. *)
Theorem insert_all_buckets (g0 : SpatialGrid) (pts : list Point) :
  let g := insert_all (clear g0) pts in
  cellSize g = cellSize g0 /\
  allPoints g = pts /\
  forall k,
    grid g !! k =
    match filter (fun p => getCell g0 (plat p) (plon p) = k) pts with
    | [] => None
    | l => Some l
    end.
Proof.
  intros g. subst g. repeat split.
  - rewrite insert_all_cellSize. reflexivity.
  - rewrite insert_all_allPoints. reflexivity.
  - intros k. apply (insert_all_lookup (cellSize g0) pts k).
Qed.

Lemma offsets_mono (r r' dx : Z) : 0 <= r <= r' -> In dx (offsets r) -> In dx (offsets r').
Proof.
  unfold offsets. intros Hr H.
  apply list_elem_of_In, elem_of_seqZ in H.
  apply list_elem_of_In, elem_of_seqZ. lia.
Qed.

Lemma getNearbyPoints_cells (g : SpatialGrid) (lat lon : float) (r : Z) (p : Point) :
  In p (getNearbyPoints g lat lon r) <->
  exists dx dy points,
    In dx (offsets r) /\ In dy (offsets r) /\
    grid g !! cell_key (floor (lon / cellSize g) + #dx)%js
                       (floor (lat / cellSize g) + #dy)%js = Some points /\
    In p points.
Proof.
  unfold getNearbyPoints. rewrite in_flat_map. split.
  - intros (dx & Hdx & H). apply in_flat_map in H as (dy & Hdy & H).
    destruct (grid g !! _) as [points|] eqn:E; [|destruct H].
    exists dx, dy, points. auto.
  - intros (dx & dy & points & Hdx & Hdy & E & H).
    exists dx. split; [exact Hdx|]. apply in_flat_map.
    exists dy. split; [exact Hdy|]. rewrite E. exact H.
Qed.

Lemma getNearbyPoints_clear (g : SpatialGrid) (lat lon : float) (r : Z) :
  getNearbyPoints (clear g) lat lon r = [].
Proof.
  destruct (getNearbyPoints (clear g) lat lon r) as [|c l] eqn:E; [reflexivity|].
  assert (H : In c (getNearbyPoints (clear g) lat lon r)) by (rewrite E; left; reflexivity).
  apply getNearbyPoints_cells in H as (dx & dy & points & _ & _ & Hk & _).
  simpl in Hk. rewrite lookup_empty in Hk. discriminate.
Qed.

(** X18.  A cleared index answers every query with
    [{ point: null, distance: Infinity }]. *)
Theorem findNearest_clear (Math : MathObject) (g : SpatialGrid) (lat lon : float) :
  findNearest Math (clear g) lat lon = {| point := None; distance := Infinity |}.
Proof.
  apply findNearest_nothing. intros r _. apply getNearbyPoints_clear.
Qed.

(** The block of a larger radius holds every candidate of a smaller one. *)
Lemma getNearbyPoints_mono (g : SpatialGrid) (lat lon : float) (r r' : Z) (p : Point) :
  0 <= r <= r' ->
  In p (getNearbyPoints g lat lon r) -> In p (getNearbyPoints g lat lon r').
Proof.
  intros Hr. rewrite !getNearbyPoints_cells.
  intros (dx & dy & points & Hdx & Hdy & E & H).
  exists dx, dy, points.
  split; [exact (offsets_mono r r' dx Hr Hdx)|].
  split; [exact (offsets_mono r r' dy Hr Hdy)|]. auto.
Qed.

(** X19.  [findNearest] looks no further than the block of 41 by 41 cells around
    the query's cell: when that block holds no point, the answer is
    [{ point: null, distance: Infinity }], however many points the index
    holds elsewhere; and a point that is returned lies in that block. *)
Theorem findNearest_cap (Math : MathObject) (g : SpatialGrid) (lat lon : float) :
  (getNearbyPoints g lat lon 20 = [] ->
   findNearest Math g lat lon = {| point := None; distance := Infinity |}) /\
  (forall p, point (findNearest Math g lat lon) = Some p ->
             In p (getNearbyPoints g lat lon 20)).
Proof.
  split.
  - intros Hempty. apply findNearest_nothing. intros r Hr.
    destruct (getNearbyPoints g lat lon r) as [|c l] eqn:E; [reflexivity|].
    assert (Hc : In c (getNearbyPoints g lat lon 20)).
    { apply (getNearbyPoints_mono g lat lon r 20); [lia|]. rewrite E. left. reflexivity. }
    rewrite Hempty in Hc. destruct Hc.
  - intros p Hp. unfold findNearest in Hp.
    destruct (findNearest_from_spec Math g lat lon (seqZ 1 20))
      as [H|(r & q & Hr & Hq & Hres & _)]; rewrite H in Hp || rewrite Hres in Hp;
      simpl in Hp; [discriminate|].
    injection Hp as <-.
    apply list_elem_of_In, elem_of_seqZ in Hr.
    apply (getNearbyPoints_mono g lat lon r 20); [lia|exact Hq].
Qed.

Lemma add_zero_key (x : float) : Number_toString_key (x + #0)%js = Number_toString_key x.
Proof. destruct x as [[]|[]| |s m e]; reflexivity. Qed.

(** A point just inserted is collected by a query at its own coordinates,
    at every radius, whatever its coordinates are. *)
Lemma insert_then_nearby (g : SpatialGrid) (lat lon : float) (d : option Location) (r : Z) :
  0 <= r ->
  In {| plat := lat; plon := lon; data := d |}
     (getNearbyPoints (insert g lat lon d) lat lon r).
Proof.
  intros Hr. apply getNearbyPoints_cells.
  assert (H0 : In 0 (offsets r)).
  { unfold offsets. apply list_elem_of_In, elem_of_seqZ. lia. }
  exists 0, 0. eexists. split; [exact H0|]. split; [exact H0|].
  rewrite insert_cellSize. unfold cell_key. rewrite !add_zero_key.
  rewrite insert_lookup.
  change (Number_toString_key (floor (lon / cellSize g)%js),
          Number_toString_key (floor (lat / cellSize g)%js)) with (getCell g lat lon).
  rewrite decide_True by reflexivity.
  split; [reflexivity|]. apply in_or_app. right. left. reflexivity.
Qed.

(** X20.  Insert, then query at the same coordinates: provided the distance of
    these coordinates to themselves is a number below infinity, the query
    returns a point, at the first radius, that the inserted point does not
    beat. *)
Theorem insert_then_findNearest (Math : MathObject) (g : SpatialGrid) (lat lon : float)
  (d : option Location) :
  (haversineDistance Math lat lon lat lon < Infinity)%js = true ->
  exists p,
    In p (getNearbyPoints (insert g lat lon d) lat lon 1) /\
    findNearest Math (insert g lat lon d) lat lon =
      {| point := Some p;
         distance := haversineDistance Math lat lon (plat p) (plon p) |} /\
    (haversineDistance Math lat lon lat lon <
     haversineDistance Math lat lon (plat p) (plon p))%js = false.
Proof.
  intros Hfin.
  pose proof (insert_then_nearby g lat lon d 1 ltac:(lia)) as Hin.
  rewrite (findNearest_first Math (insert g lat lon d) lat lon 1).
  - destruct (nearest_of_some Math lat lon _ _ Hin Hfin) as (p & Hp & Hres & _ & Hmin).
    exists p. split; [exact Hp|]. split; [exact Hres|].
    exact (Hmin _ Hin).
  - lia.
  - intros r' Hr'. lia.
  - intros E. rewrite E in Hin. destruct Hin.
Qed.

(** ** Rebuilding an index *)

(** X21.  [buildHydrantIndex] replaces, whatever the hydrant grid held before, its
    contents by the points of the hydrants given, keeps the cell size, sets
    [hydrantsList], leaves the station grid, the station list and the table
    of address records as they were (records computed from former hydrants
    stay), and posts one [hydrantIndexReady] message with the number of
    hydrants.  Building twice leaves the engine as building once with the
    second list. *)
Theorem buildHydrantIndex_rebuilds (hydrants : list Location) (w : World) :
  let e := engine w in
  let e' := engine (snd (buildHydrantIndex hydrants w)) in
  fst (buildHydrantIndex hydrants w) = Normal tt /\
  hydrantGrid e' =
    insert_all (new_SpatialGrid (cellSize (hydrantGrid e))) (map hydrant_point hydrants) /\
  hydrantsList e' = hydrants /\
  stationGrid e' = stationGrid e /\
  stationsList e' = stationsList e /\
  addressesWithDistances e' = addressesWithDistances e /\
  (exists elapsed,
     outbox (snd (buildHydrantIndex hydrants w)) =
     outbox w ++ [hydrantIndexReady (length_num hydrants) elapsed]) /\
  forall former,
    engine (snd (buildHydrantIndex hydrants (snd (buildHydrantIndex former w)))) = e'.
Proof.
  intros e e'. subst e e'.
  repeat split; try (rewrite buildHydrantIndex_run; simpl; eauto; fail).
  intros former. rewrite !buildHydrantIndex_run. simpl.
  unfold set_hydrants. simpl. unfold clear at 1. simpl.
  rewrite insert_all_cellSize. reflexivity.
Qed.

(** X22.  [setStations] does the same for the station grid and [stationsList],
    each point carrying its station; the hydrant grid, the hydrant list and
    the table are left as they were, and one [stationsIndexReady] message
    with the number of stations is posted. *)
Theorem setStations_rebuilds (stations : list Location) (w : World) :
  let e := engine w in
  let e' := engine (snd (setStations stations w)) in
  fst (setStations stations w) = Normal tt /\
  stationGrid e' =
    insert_all (new_SpatialGrid (cellSize (stationGrid e))) (map station_point stations) /\
  stationsList e' = stations /\
  hydrantGrid e' = hydrantGrid e /\
  hydrantsList e' = hydrantsList e /\
  addressesWithDistances e' = addressesWithDistances e /\
  outbox (snd (setStations stations w)) =
    outbox w ++ [stationsIndexReady (length_num stations)] /\
  forall former,
    engine (snd (setStations stations (snd (setStations former w)))) = e'.
Proof.
  intros e e'. subst e e'.
  repeat split; try (rewrite setStations_run; simpl; eauto; fail).
  intros former. rewrite !setStations_run. simpl.
  unfold set_stations. simpl. unfold clear at 1. simpl.
  rewrite insert_all_cellSize. reflexivity.
Qed.

(** X23.  A precomputation pass replaces the table by the records of the
    addresses given, whatever the table held, leaves both grids and both
    lists as they were, and posts, after one [progress] message for every
    5000 addresses, one [addressDistancesReady] message with the number of
    addresses. *)
Theorem precompute_rebuilds (Math : MathObject) (addresses : list Location) (w : World) :
  let e := engine w in
  let w' := snd (precomputeAddressDistances Math addresses w) in
  fst (precomputeAddressDistances Math addresses w) = Normal tt /\
  addressesWithDistances (engine w') = map (address_record Math e) addresses /\
  hydrantGrid (engine w') = hydrantGrid e /\
  stationGrid (engine w') = stationGrid e /\
  hydrantsList (engine w') = hydrantsList e /\
  stationsList (engine w') = stationsList e /\
  exists elapsed summary,
    outbox w' =
      outbox w ++
      map (fun k => progress (#(5000 * k))%js (length_num addresses))
          (seqZ 1 (Z.of_nat (length addresses) / 5000)) ++
      [addressDistancesReady (length_num addresses) elapsed summary].
Proof.
  intros e w'. subst e w'. rewrite precomputeAddressDistances_run. simpl.
  repeat split; eauto.
Qed.

(** ** The classification of a zone *)

(** The loop over the table writes neither the area nor the counts of
    hydrants and stations nor the fields of the classification. *)
Lemma count_address_frame (zone : Feature) (a : AddressRecord)
  (st st' : Stats * float * float) :
  count_address zone a st = Normal st' ->
  areaSqMiles (fst (fst st')) = areaSqMiles (fst (fst st)) /\
  hydrantCount (fst (fst st')) = hydrantCount (fst (fst st)) /\
  addressDensity (fst (fst st')) = addressDensity (fst (fst st)) /\
  hydrantDensityPerSqMile (fst (fst st')) = hydrantDensityPerSqMile (fst (fst st)) /\
  isRural (fst (fst st')) = isRural (fst (fst st)) /\
  ruralNote (fst (fst st')) = ruralNote (fst (fst st)) /\
  areaType (fst (fst st')) = areaType (fst (fst st)).
Proof.
  destruct st as [[stats th] ts]. unfold count_address.
  destruct (pointInPolygon (lat (source a)) (lon (source a)) zone) as [[]|];
    [|intros [= <-]; repeat split|discriminate].
  intros [= <-]. simpl.
  repeat match goal with
  | |- context [if ?c then _ else _] => destruct c; simpl
  end; repeat split.
Qed.

Lemma count_addresses_frame (zone : Feature) (l : list AddressRecord)
  (st st' : Stats * float * float) :
  for_of_pure l (count_address zone) st = Normal st' ->
  areaSqMiles (fst (fst st')) = areaSqMiles (fst (fst st)) /\
  hydrantCount (fst (fst st')) = hydrantCount (fst (fst st)) /\
  addressDensity (fst (fst st')) = addressDensity (fst (fst st)) /\
  hydrantDensityPerSqMile (fst (fst st')) = hydrantDensityPerSqMile (fst (fst st)) /\
  isRural (fst (fst st')) = isRural (fst (fst st)) /\
  ruralNote (fst (fst st')) = ruralNote (fst (fst st)) /\
  areaType (fst (fst st')) = areaType (fst (fst st)).
Proof.
  revert st. induction l as [|a l IH]; intros st; simpl.
  - intros [= <-]. repeat split.
  - destruct (count_address zone a st) as [st1|] eqn:E; [|discriminate].
    intros H. apply IH in H. apply count_address_frame in E.
    destruct H as (-> & -> & -> & -> & -> & -> & ->). exact E.
Qed.

Lemma derive_ratios_frame (th ts : float) (stats : Stats) :
  let stats' := derive_ratios th ts stats in
  areaSqMiles stats' = areaSqMiles stats /\
  hydrantCount stats' = hydrantCount stats /\
  addressCount stats' = addressCount stats /\
  addressDensity stats' = addressDensity stats /\
  hydrantDensityPerSqMile stats' = hydrantDensityPerSqMile stats /\
  isRural stats' = isRural stats /\
  ruralNote stats' = ruralNote stats /\
  areaType stats' = areaType stats.
Proof.
  unfold derive_ratios. destruct (addressCount stats > #0)%js; simpl; repeat split.
Qed.

(** What [classify] writes. *)
Lemma classify_result (area : float) (stats : Stats) :
  let stats' := classify area stats in
  let density := (addressCount stats / area)%js in
  areaSqMiles stats' = areaSqMiles stats /\
  hydrantCount stats' = hydrantCount stats /\
  addressCount stats' = addressCount stats /\
  if (area > #0)%js then
    addressDensity stats' = density /\
    hydrantDensityPerSqMile stats' = (hydrantCount stats / area)%js /\
    areaType stats' =
      Some (if (density < #100)%js then "Rural"
            else if (density < #1000)%js then "Suburban" else "Urban") /\
    isRural stats' = (if (density < #100)%js then true else isRural stats) /\
    ruralNote stats' = (if (density < #100)%js then Some rural_note else None)
  else
    areaType stats' = areaType stats /\ isRural stats' = isRural stats /\
    ruralNote stats' = ruralNote stats /\
    addressDensity stats' = addressDensity stats /\
    hydrantDensityPerSqMile stats' = hydrantDensityPerSqMile stats.
Proof.
  unfold classify.
  remember (#100)%js as c100. remember (#1000)%js as c1000. remember (#0)%js as c0.
  destruct (area > c0)%js; [|repeat split].
  simpl.
  destruct (addressCount stats / area < c100)%js;
    [|destruct (addressCount stats / area < c1000)%js]; simpl; repeat split.
Qed.

(** X24.  The statistics posted for a zone carry the area of the zone.  When the
    area is not above zero (zero or NaN), the zone is not classified: no
    [areaType], [isRural] false, no note, both densities 0.  When it is,
    the densities are the counts divided by the area, [areaType] is
    ['Rural'] below 100 addresses per square mile, ['Suburban'] below 1000
    and ['Urban'] otherwise, and [isRural] and the advisory note go with
    ['Rural'] only. *)
Theorem analyzeZipCode_classification (Math : MathObject) (zone : Feature) (w : World) :
  has_rings (geometry zone) ->
  exists stats elapsed,
    analyzeZipCode Math zone w =
      (Normal tt,
       {| engine := engine w;
          outbox := outbox w ++ [zipCodeAnalysisReady stats elapsed];
          clock := clock w;
          ticks := S (S (ticks w)) |}) /\
    calculatePolygonArea Math zone = Normal (areaSqMiles stats) /\
    if (areaSqMiles stats > #0)%js then
      addressDensity stats = (addressCount stats / areaSqMiles stats)%js /\
      hydrantDensityPerSqMile stats = (hydrantCount stats / areaSqMiles stats)%js /\
      areaType stats =
        Some (if (addressDensity stats < #100)%js then "Rural"
              else if (addressDensity stats < #1000)%js then "Suburban"
              else "Urban") /\
      isRural stats = (addressDensity stats < #100)%js /\
      ruralNote stats =
        (if (addressDensity stats < #100)%js then Some rural_note else None)
    else
      areaType stats = None /\ isRural stats = false /\ ruralNote stats = None /\
      addressDensity stats = (#0)%js /\ hydrantDensityPerSqMile stats = (#0)%js.
Proof.
  intros Hrings. rewrite analyzeZipCode_run. unfold zone_statistics.
  destruct (calculatePolygonArea Math zone) as [area|] eqn:Ea;
    [|apply calculatePolygonArea_throws in Ea; contradiction].
  destruct (count_hydrants_total zone (hydrantsList (engine w)) (initial_stats area) Hrings)
    as [s1 H1].
  rewrite H1. apply count_hydrants_frame in H1.
  destruct (count_stations_total zone (stationsList (engine w)) s1 Hrings) as [s2 H2].
  rewrite H2. apply count_stations_frame in H2.
  destruct (count_addresses_total zone (addressesWithDistances (engine w))
              (s2, (#0)%js, (#0)%js) Hrings) as [[[s3 th] ts] H3].
  rewrite H3. apply count_addresses_frame in H3. simpl in H3.
  eexists. eexists. split; [reflexivity|].
  destruct (derive_ratios_frame th ts s3) as (Ha & Hh & Hc & Hd & Hp & Hr & Hn & Ht).
  set (s4 := derive_ratios th ts s3) in *.
  destruct H3 as (Ha3 & Hh3 & Hd3 & Hp3 & Hr3 & Hn3 & Ht3).
  assert (Harea : areaSqMiles s4 = area).
  { rewrite Ha, Ha3, H2, H1. reflexivity. }
  assert (Hinit : addressDensity s4 = (#0)%js /\ hydrantDensityPerSqMile s4 = (#0)%js /\
                  isRural s4 = false /\ ruralNote s4 = None /\ areaType s4 = None).
  { rewrite Hd, Hp, Hr, Hn, Ht, Hd3, Hp3, Hr3, Hn3, Ht3, H2, H1. simpl. auto. }
  destruct Hinit as (Hd0 & Hp0 & Hr0 & Hn0 & Ht0).
  clearbody s4.
  destruct (classify_result area s4) as (Hca & Hch & Hcc & Hcl).
  rewrite Hca, Harea. split; [reflexivity|].
  destruct (area > #0)%js.
  - destruct Hcl as (-> & -> & -> & -> & ->). rewrite Hch, Hcc, Hr0.
    repeat split. destruct (addressCount s4 / area < #100)%js; reflexivity.
  - destruct Hcl as (-> & -> & -> & -> & ->). auto.
Qed.

(** ** The engine on the sample run *)

Lemma precompute_coverage_flags_witness :
  In Scenario.home_record (addressesWithDistances (engine Scenario.precomputed)) /\
  within1000ft Scenario.home_record = true.
Proof.
  assert (Hin : In Scenario.home_record
                   (addressesWithDistances (engine Scenario.precomputed))).
  { unfold Scenario.precomputed. rewrite precompute_table. left. reflexivity. }
  split; [exact Hin|].
  destruct (proj2 (precompute_coverage_flags ref_Math Scenario.addresses Scenario.indexed)
              Scenario.home_record Hin) as (_ & _ & _ & _ & H & _).
  apply H. vm_compute. reflexivity.
Defined.

Lemma analyzeZipCode_completes_witness :
  exists stats elapsed,
    fst (analyzeZipCode ref_Math Scenario.downtown Scenario.precomputed) = Normal tt /\
    outbox (snd (analyzeZipCode ref_Math Scenario.downtown Scenario.precomputed)) =
      outbox Scenario.precomputed ++ [zipCodeAnalysisReady stats elapsed].
Proof.
  apply (proj1 (analyzeZipCode_completes ref_Math Scenario.downtown Scenario.precomputed)).
  simpl. discriminate.
Defined.

Lemma polygon_helpers_throw_witness :
  pointInPolygon (dec 38581 3) (dec (-121491) 3)
    {| geometry := MultiPolygon ([[Scenario.downtown_ring]] ++ [] :: []) |} = Normal true /\
  pointInPolygon (#0)%js (#0)%js
    {| geometry := MultiPolygon ([[Scenario.downtown_ring]] ++ [] :: []) |} = TypeError.
Proof.
  split.
  - rewrite (proj1 (proj2 (proj2 (polygon_helpers_throw ref_Math
                                    (dec 38581 3) (dec (-121491) 3))))
               [[Scenario.downtown_ring]] []).
    + vm_compute. reflexivity.
    + repeat constructor. discriminate.
  - rewrite (proj1 (proj2 (proj2 (polygon_helpers_throw ref_Math (#0)%js (#0)%js)))
               [[Scenario.downtown_ring]] []).
    + vm_compute. reflexivity.
    + repeat constructor. discriminate.
Defined.

(** The test used to check, record by record, that a zone holds no record. *)
Lemma outside_all (zone : Feature) (table : list AddressRecord) :
  forallb (fun a => match pointInPolygon (lat (source a)) (lon (source a)) zone with
                    | Normal false => true
                    | _ => false
                    end) table = true ->
  forall a, In a table ->
    pointInPolygon (lat (source a)) (lon (source a)) zone = Normal false.
Proof.
  intros H a Ha. rewrite forallb_forall in H. specialize (H a Ha).
  destruct (pointInPolygon _ _ zone) as [[]|]; congruence.
Defined.

Lemma analyzeZipCode_no_address_witness :
  exists stats elapsed,
    outbox (snd (analyzeZipCode ref_Math Scenario.elsewhere Scenario.precomputed)) =
      outbox Scenario.precomputed ++ [zipCodeAnalysisReady stats elapsed] /\
    coveragePercent500 stats = Some "0" /\
    avgDistanceToHydrant stats = (#0)%js.
Proof.
  destruct (analyzeZipCode_no_address ref_Math Scenario.elsewhere Scenario.precomputed)
    as (stats & elapsed & Hrun & H500 & _ & _ & _ & Havg & _).
  - simpl. discriminate.
  - apply outside_all. vm_compute. reflexivity.
  - exists stats, elapsed. rewrite Hrun. auto.
Defined.

Lemma analyzeZipCode_min_max_witness :
  exists stats elapsed,
    outbox (snd (analyzeZipCode ref_Math Scenario.downtown Scenario.precomputed)) =
      outbox Scenario.precomputed ++ [zipCodeAnalysisReady stats elapsed] /\
    (nearestHydrantDist Scenario.home_record < minDistance stats)%js = false /\
    (nearestHydrantDist Scenario.home_record > maxDistance stats)%js = false.
Proof.
  destruct (analyzeZipCode_min_max ref_Math Scenario.downtown Scenario.precomputed)
    as (stats & elapsed & Hrun & Hmm).
  - simpl. discriminate.
  - exists stats, elapsed. rewrite Hrun. split; [reflexivity|].
    apply Hmm.
    + unfold Scenario.precomputed. rewrite precompute_table. left. reflexivity.
    + vm_compute. reflexivity.
Defined.

Lemma analyzeZipCode_classification_witness :
  exists stats elapsed,
    outbox (snd (analyzeZipCode ref_Math Scenario.downtown Scenario.precomputed)) =
      outbox Scenario.precomputed ++ [zipCodeAnalysisReady stats elapsed] /\
    calculatePolygonArea ref_Math Scenario.downtown = Normal (areaSqMiles stats).
Proof.
  destruct (analyzeZipCode_classification ref_Math Scenario.downtown Scenario.precomputed)
    as (stats & elapsed & Hrun & Harea & _).
  - simpl. discriminate.
  - exists stats, elapsed. rewrite Hrun. auto.
Defined.

Lemma precompute_records_sound_witness :
  exists s,
    nearestStationData Scenario.home_record = Some s /\ In s Scenario.stations.
Proof.
  assert (Hin : In Scenario.home_record
                   (addressesWithDistances
                      (engine (snd (precomputeAddressDistances ref_Math Scenario.addresses
                                      (process ref_Math Scenario.indexing
                                         (initial_world Scenario.clock))))))).
  { rewrite precompute_table. left. reflexivity. }
  destruct (precompute_records_sound ref_Math Scenario.indexing Scenario.clock
              Scenario.addresses Scenario.home_record Hin) as [_ H].
  destruct (nearestStationData Scenario.home_record) as [s|] eqn:E.
  - exists s. split; [reflexivity|]. exact (proj1 H).
  - exfalso. revert E. vm_compute. discriminate.
Defined.

Lemma precompute_without_stations_witness :
  forallb (fun a => negb (withinStationMile a))
    (addressesWithDistances
       (engine (snd (precomputeAddressDistances ref_Math Scenario.addresses
                       Scenario.hydrants_only)))) = true.
Proof.
  destruct (precompute_without_stations ref_Math Scenario.addresses Scenario.hydrants_only)
    as [Hrec _]; [reflexivity|].
  apply forallb_forall. intros a Ha.
  destruct (Hrec a Ha) as (_ & _ & ->). reflexivity.
Defined.

Lemma pointInPolygon_any_part_witness :
  pointInPolygon (dec 38581 3) (dec (-121491) 3) Scenario.both = Normal true.
Proof.
  unfold Scenario.both.
  rewrite (proj1 (proj2 (pointInPolygon_any_part (dec 38581 3) (dec (-121491) 3)))).
  - vm_compute. reflexivity.
  - repeat constructor; discriminate.
Defined.

Lemma degenerate_zone_witness :
  pointInPolygon (dec 385 1) (dec (-1215) 1) Scenario.dot = Normal false /\
  calculatePolygonArea ref_Math Scenario.dot = Normal (#0)%js.
Proof.
  destruct (degenerate_zone ref_Math Scenario.dot) as [Hpip Harea].
  - simpl. eexists. split; [reflexivity|]. simpl. lia.
  - split; [apply Hpip|exact Harea].
Defined.

Lemma calculatePolygonArea_not_negative_witness :
  (Scenario.downtown_area < #0)%js = false.
Proof.
  apply (calculatePolygonArea_not_negative ref_Math Scenario.downtown).
  vm_compute. reflexivity.
Defined.

Lemma haversineDistance_symmetric_witness :
  haversineDistance ref_Math (dec 3860 2) (dec (-12150) 2) (dec 38581 3) (dec (-121491) 3) =
  haversineDistance ref_Math (dec 38581 3) (dec (-121491) 3) (dec 3860 2) (dec (-12150) 2).
Proof.
  apply haversineDistance_symmetric; vm_compute; reflexivity.
Defined.

Lemma haversineDistance_self_witness :
  haversineDistance ref_Math (dec 38581 3) (dec (-121491) 3)
                    (dec 38581 3) (dec (-121491) 3) = zero.
Proof.
  apply haversineDistance_self; vm_compute; reflexivity.
Defined.

Lemma findNearest_cap_witness :
  findNearest ref_Math (hydrantGrid (engine Scenario.precomputed)) (#0)%js (#0)%js =
  {| point := None; distance := Infinity |}.
Proof.
  apply (proj1 (findNearest_cap ref_Math (hydrantGrid (engine Scenario.precomputed))
                  (#0)%js (#0)%js)).
  vm_compute. reflexivity.
Defined.

Lemma insert_then_findNearest_witness :
  exists p,
    findNearest ref_Math
      (insert (hydrantGrid (engine Scenario.precomputed))
              (dec 38581 3) (dec (-121491) 3) None)
      (dec 38581 3) (dec (-121491) 3) =
    {| point := Some p;
       distance := haversineDistance ref_Math (dec 38581 3) (dec (-121491) 3)
                                     (plat p) (plon p) |}.
Proof.
  destruct (insert_then_findNearest ref_Math (hydrantGrid (engine Scenario.precomputed))
              (dec 38581 3) (dec (-121491) 3) None) as (p & _ & H & _).
  - vm_compute. reflexivity.
  - exists p. exact H.
Defined.
